(** * triangle.c: a shallow embedding of the Raspberry Pi GLES2 triangle demo

    The program is a straight line of calls into the EGL, dispmanx and
    OpenGL ES libraries followed by an endless frame loop.  Everything
    the program can observe of those libraries is the value a call
    returns (and what it writes through its out-pointers); everything
    the libraries observe of the program is the sequence of calls it
    makes.  The embedding therefore runs the code of [triangle.c]
    against an oracle that answers each call, and records the calls in
    the order they are made. *)

From Stdlib Require Import ZArith List Bool String Ascii Lia.
From Stdlib Require Import Floats.PrimFloat Floats.FloatOps Floats.SpecFloat
  Floats.FloatAxioms.
From Stdlib Require Import Numbers.Cyclic.Int63.Uint63.
Import ListNotations.
Open Scope Z_scope.

(** ** Machine integers *)

Module CInt.

(** [uint32_t], [GLuint], handles and the 32-bit pointers of the target. *)
Definition u32 (z : Z) : Z := z mod 2 ^ 32.

(** [int32_t], [GLint], [EGLint], [int]: two's complement wrap-around. *)
Definition s32 (z : Z) : Z := (z + 2 ^ 31) mod 2 ^ 32 - 2 ^ 31.

(** [long] is [bits] wide; the VideoCore userland the program links
    against ([bcm_host.h]) is an ILP32 ABI, see [LONG_BITS]. *)
Definition swrap (bits : Z) (z : Z) : Z :=
  (z + 2 ^ (bits - 1)) mod 2 ^ bits - 2 ^ (bits - 1).

Definition LONG_BITS : Z := 32.
Definition LONG_MIN : Z := - 2 ^ (LONG_BITS - 1).
Definition LONG_MAX : Z := 2 ^ (LONG_BITS - 1) - 1.
Definition slong (z : Z) : Z := swrap LONG_BITS z.

(** Conversion [long -> double]; exact for every 32-bit value. *)
Definition double_of_long (z : Z) : float :=
  if z <? 0 then PrimFloat.opp (PrimFloat.of_uint63 (Uint63.of_Z (- z)))
  else PrimFloat.of_uint63 (Uint63.of_Z z).

(** Truncation of a double towards zero, [None] for NaN and infinities. *)
Definition trunc_double (f : float) : option Z :=
  match Prim2SF f with
  | S754_zero _ => Some 0
  | S754_finite s m e =>
      let a := match e with
               | Z0 => Zpos m
               | Zpos p => Zpos m * 2 ^ Zpos p
               | Zneg p => Zpos m / 2 ^ Zpos p
               end in
      Some (if s then - a else a)
  | S754_infinity _ | S754_nan => None
  end.

(** Conversion [double -> long] at a call whose parameter is [long].
    In range it truncates.  Out of range ISO C leaves it undefined; the
    model takes what the ARM VFP conversion does there: it saturates,
    and NaN becomes 0. *)
Definition long_of_double (f : float) : Z :=
  match Prim2SF f with
  | S754_nan => 0
  | S754_infinity s => if s then LONG_MIN else LONG_MAX
  | _ => match trunc_double f with
         | Some z => Z.max LONG_MIN (Z.min LONG_MAX z)
         | None => 0
         end
  end.

End CInt.
Import CInt.

(** ** Constants of the absent headers

    [EGL/egl.h], [GLES2/gl2.h] and the dispmanx headers are included by
    [triangle.c] but are not part of the repository; the values below
    are the ones the Khronos and VideoCore headers give. *)

Module Hdr.
Definition EGL_FALSE : Z := 0.
Definition EGL_NO_DISPLAY : Z := 0.
Definition EGL_NO_CONTEXT : Z := 0.
Definition EGL_NO_SURFACE : Z := 0.
Definition EGL_DEFAULT_DISPLAY : Z := 0.
Definition EGL_RED_SIZE : Z := 0x3024.
Definition EGL_GREEN_SIZE : Z := 0x3023.
Definition EGL_BLUE_SIZE : Z := 0x3022.
Definition EGL_ALPHA_SIZE : Z := 0x3021.
Definition EGL_SURFACE_TYPE : Z := 0x3033.
Definition EGL_WINDOW_BIT : Z := 0x0004.
Definition EGL_NONE : Z := 0x3038.
Definition EGL_CONTEXT_CLIENT_VERSION : Z := 0x3098.
Definition EGL_OPENGL_ES_API : Z := 0x30A0.
Definition DISPMANX_PROTECTION_NONE : Z := 0.
Definition GL_COLOR_BUFFER_BIT : Z := 0x4000.
Definition GL_VERTEX_SHADER : Z := 0x8B31.
Definition GL_FRAGMENT_SHADER : Z := 0x8B30.
Definition GL_ARRAY_BUFFER : Z := 0x8892.
Definition GL_STATIC_DRAW : Z := 0x88E4.
Definition GL_FLOAT : Z := 0x1406.
Definition GL_TRIANGLES : Z := 0x0004.
Definition sizeof_GLfloat : Z := 4.
End Hdr.
Import Hdr.

(** ** Data *)

(** [GLfloat] is IEEE binary32.  The only values the program writes are
    [-1.0f], [0.0f], [0.5f] and [1.0f], which binary64 holds exactly. *)
Definition GLfloat := float.

Record timeval := { tv_sec : Z; tv_usec : Z }.

Record VC_RECT_T := { x : Z; y : Z; width : Z; height : Z }.

Record EGL_DISPMANX_WINDOW_T :=
  { element : Z; win_width : Z; win_height : Z }.

(** The state record of lines 26-46. *)
Record OPENGL_STATE_T := {
  screen_width : Z;
  screen_height : Z;
  display : Z;
  surface : Z;
  context : Z;
  vshader : Z;
  fshader : Z;
  program : Z;
  attr_vertex : Z;
  vbo_triangle : Z;
  verbose : Z
}.

(** The record after [memset] at line 294: every field is zero. *)
Definition zero_state : OPENGL_STATE_T :=
  {| screen_width := 0; screen_height := 0; display := 0; surface := 0;
     context := 0; vshader := 0; fshader := 0; program := 0;
     attr_vertex := 0; vbo_triangle := 0; verbose := 0 |}.

(** One assignment function per field the program assigns.  There is
    none for [verbose]: no statement of [triangle.c] writes it. *)
Definition set_screen_size (w h : Z) (s : OPENGL_STATE_T) :=
  {| screen_width := w; screen_height := h; display := display s;
     surface := surface s; context := context s; vshader := vshader s;
     fshader := fshader s; program := program s;
     attr_vertex := attr_vertex s; vbo_triangle := vbo_triangle s;
     verbose := verbose s |}.
Definition set_display (v : Z) (s : OPENGL_STATE_T) :=
  {| screen_width := screen_width s; screen_height := screen_height s;
     display := v; surface := surface s; context := context s;
     vshader := vshader s; fshader := fshader s; program := program s;
     attr_vertex := attr_vertex s; vbo_triangle := vbo_triangle s;
     verbose := verbose s |}.
Definition set_surface (v : Z) (s : OPENGL_STATE_T) :=
  {| screen_width := screen_width s; screen_height := screen_height s;
     display := display s; surface := v; context := context s;
     vshader := vshader s; fshader := fshader s; program := program s;
     attr_vertex := attr_vertex s; vbo_triangle := vbo_triangle s;
     verbose := verbose s |}.
Definition set_context (v : Z) (s : OPENGL_STATE_T) :=
  {| screen_width := screen_width s; screen_height := screen_height s;
     display := display s; surface := surface s; context := v;
     vshader := vshader s; fshader := fshader s; program := program s;
     attr_vertex := attr_vertex s; vbo_triangle := vbo_triangle s;
     verbose := verbose s |}.
Definition set_vshader (v : Z) (s : OPENGL_STATE_T) :=
  {| screen_width := screen_width s; screen_height := screen_height s;
     display := display s; surface := surface s; context := context s;
     vshader := v; fshader := fshader s; program := program s;
     attr_vertex := attr_vertex s; vbo_triangle := vbo_triangle s;
     verbose := verbose s |}.
Definition set_fshader (v : Z) (s : OPENGL_STATE_T) :=
  {| screen_width := screen_width s; screen_height := screen_height s;
     display := display s; surface := surface s; context := context s;
     vshader := vshader s; fshader := v; program := program s;
     attr_vertex := attr_vertex s; vbo_triangle := vbo_triangle s;
     verbose := verbose s |}.
Definition set_program (v : Z) (s : OPENGL_STATE_T) :=
  {| screen_width := screen_width s; screen_height := screen_height s;
     display := display s; surface := surface s; context := context s;
     vshader := vshader s; fshader := fshader s; program := v;
     attr_vertex := attr_vertex s; vbo_triangle := vbo_triangle s;
     verbose := verbose s |}.
Definition set_attr_vertex (v : Z) (s : OPENGL_STATE_T) :=
  {| screen_width := screen_width s; screen_height := screen_height s;
     display := display s; surface := surface s; context := context s;
     vshader := vshader s; fshader := fshader s; program := program s;
     attr_vertex := v; vbo_triangle := vbo_triangle s;
     verbose := verbose s |}.
Definition set_vbo_triangle (v : Z) (s : OPENGL_STATE_T) :=
  {| screen_width := screen_width s; screen_height := screen_height s;
     display := display s; surface := surface s; context := context s;
     vshader := vshader s; fshader := fshader s; program := program s;
     attr_vertex := attr_vertex s; vbo_triangle := v;
     verbose := verbose s |}.

(** ** Calls into the libraries

    One constructor per library function the program calls, carrying
    the arguments the call site passes.  Pointer arguments that are
    [NULL] at the only call site, and out-pointers, are left out. *)

Inductive printf_arg :=
| PInt (z : Z)
| PStr (s : string).

Inductive call :=
| bcm_host_init
| eglGetDisplay (display_id : Z)
| eglInitialize (dpy : Z)
| eglChooseConfig (dpy : Z) (attrib_list : list Z) (config_size : Z)
| eglBindAPI (api : Z)
| eglCreateContext (dpy config share_context : Z) (attrib_list : list Z)
| graphics_get_display_size (display_number : Z)
| vc_dispmanx_display_open (device : Z)
| vc_dispmanx_update_start (priority : Z)
| vc_dispmanx_element_add (update disp layer : Z) (dst_rect : VC_RECT_T)
    (src : Z) (src_rect : VC_RECT_T) (protection alpha clamp transform : Z)
| vc_dispmanx_update_submit_sync (update : Z)
| eglCreateWindowSurface (dpy config : Z) (win : EGL_DISPMANX_WINDOW_T)
| eglMakeCurrent (dpy draw read ctx : Z)
| eglSwapBuffers (dpy surf : Z)
| glGetError
| glClearColor (r g b a : GLfloat)
| glClear (mask : Z)
| glCreateShader (type : Z)
| glShaderSource (shader count : Z) (source : string)
| glCompileShader (shader : Z)
| glGetShaderInfoLog (shader bufsize : Z)
| glCreateProgram
| glAttachShader (prog shader : Z)
| glLinkProgram (prog : Z)
| glGetProgramInfoLog (prog bufsize : Z)
| glDeleteShader (shader : Z)
| glGetAttribLocation (prog : Z) (name : string)
| glGenBuffers (n : Z)
| glBindBuffer (target buffer : Z)
| glBufferData (target size : Z) (data : list GLfloat) (usage : Z)
| glUseProgram (prog : Z)
| glVertexAttribPointer (index size type normalized stride pointer : Z)
| glEnableVertexAttribArray (index : Z)
| glDrawArrays (mode first count : Z)
| glViewport (vx vy vwidth vheight : Z)
| glDeleteProgram (prog : Z)
| glDeleteBuffers (n buffer : Z)
| gettimeofday
| printf (format : string) (args : list printf_arg).

(** What a call gives back: its return value and what it stores through
    its out-pointers (at most two integers, or the text of a log). *)
Record response := {
  ret : Z;
  out1 : Z;
  out2 : Z;
  out_text : string
}.

Abbreviation event := (call * response)%type.

(** The world outside the program.  [oracle n c] answers the call [c]
    when it is the [n]-th call the process makes.  [stack_garbage] is
    the content of the stack slot of an automatic [struct timeval] that
    is read before anything was stored in it. *)
Record World := {
  oracle : nat -> call -> response;
  stack_garbage : timeval
}.

(** ** The monad of the program: global state, calls, and [assert] *)

Record machine := {
  gl : OPENGL_STATE_T;   (* the global [_state] *)
  clock : nat            (* number of library calls made so far *)
}.

Inductive result (A : Type) :=
| Done (a : A) (m : machine)
| Abort (line : nat) (m : machine).   (* a failed [assert] at [line] *)
Arguments Done {A} a m.
Arguments Abort {A} line m.

Definition M (A : Type) : Type := World -> machine -> list event * result A.

Definition mret {A} (a : A) : M A := fun _ m => ([], Done a m).

Definition mbind {A B} (c : M A) (k : A -> M B) : M B :=
  fun w m =>
    match c w m with
    | (es, Done a m') => let (es', r) := k a w m' in (es ++ es', r)
    | (es, Abort l m') => (es, Abort l m')
    end.

Declare Scope prog_scope.
Delimit Scope prog_scope with prog.
Notation "x <- c ;; k" := (mbind c (fun x => k))
  (at level 61, c at next level, right associativity) : prog_scope.
Notation "c ;; k" := (mbind c (fun _ => k))
  (at level 61, right associativity) : prog_scope.
Open Scope prog_scope.

Definition do_call (c : call) : M response :=
  fun w m =>
    let r := oracle w (clock m) c in
    ([(c, r)], Done r {| gl := gl m; clock := S (clock m) |}).

Definition get_state : M OPENGL_STATE_T := fun _ m => ([], Done (gl m) m).

Definition assign (f : OPENGL_STATE_T -> OPENGL_STATE_T) : M unit :=
  fun _ m => ([], Done tt {| gl := f (gl m); clock := clock m |}).

Definition ask : M World := fun w m => ([], Done w m).

(** [assert(b)] at source line [line]. *)
Definition assert (line : nat) (b : bool) : M unit :=
  fun _ m => if b then ([], Done tt m) else ([], Abort line m).

(** [#define check() assert(glGetError() == 0)] *)
Definition check (line : nat) : M unit :=
  r <- do_call glGetError ;;
  assert line (u32 (ret r) =? 0).

Definition events {A} (o : list event * result A) : list event := fst o.
Definition outcome {A} (o : list event * result A) : result A := snd o.
Definition calls {A} (o : list event * result A) : list call :=
  map fst (events o).

Definition aborted {A} (r : result A) : bool :=
  match r with Abort _ _ => true | Done _ _ => false end.

Definition final {A} (r : result A) : machine :=
  match r with Abort _ m => m | Done _ m => m end.

(** [main] returned (with some exit code). *)
Definition returned {A} (r : result (option A)) : bool :=
  match r with Done (Some _) _ => true | _ => false end.

(** ** The program *)

Definition LF : string := String (ascii_of_nat 10) EmptyString.

(** Lines 95-103 and 105-109. *)
Definition attribute_list : list Z :=
  [ EGL_RED_SIZE; 8;
    EGL_GREEN_SIZE; 8;
    EGL_BLUE_SIZE; 8;
    EGL_ALPHA_SIZE; 8;
    EGL_SURFACE_TYPE; EGL_WINDOW_BIT;
    EGL_NONE ].

Definition context_attributes : list Z :=
  [ EGL_CONTEXT_CLIENT_VERSION; 2;
    EGL_NONE ].

(** Lines 195-206. *)
Definition vShaderSource : string :=
  ("attribute vec4 vertex;                     " ++ LF
  ++ "void main()                                " ++ LF
  ++ "{                                          " ++ LF
  ++ "    gl_Position = vertex;                  " ++ LF
  ++ "}                                          " ++ LF)%string.

Definition fShaderSource : string :=
  ("void main()                                         " ++ LF
  ++ "{                                                   " ++ LF
  ++ "    gl_FragColor = vec4(0.0, 0.0, 1.0, 0.5);        " ++ LF
  ++ "}                                                   " ++ LF)%string.

(** Lines 238-242: a counter-clockwise triangle. *)
Definition triangle_vertex_data : list GLfloat :=
  [ (-1)%float; (-1)%float; 0%float;     (* Lower left *)
    1%float;    (-1)%float; 0%float;     (* Lower right *)
    0%float;    1%float;    0%float ].   (* Top center *)

(** [sizeof] of an array of [GLfloat]. *)
Definition sizeof_floats (a : list GLfloat) : Z :=
  sizeof_GLfloat * Z.of_nat (List.length a).

(** The three [printf] formats, lines 56, 64 and 267. *)
Definition shader_log_format : string :=
  ("%d:shader:" ++ LF ++ "%s" ++ LF)%string.
Definition program_log_format : string :=
  ("%d:program:" ++ LF ++ "%s" ++ LF)%string.
Definition delta_format : string :=
  ("%ld microseconds" ++ LF)%string.

(** Lines 51-57.  The parameter is a [GLint]; [log] is the local
    buffer of 1024 bytes the library fills. *)
Definition showlog (shader : Z) : M unit :=
  r <- do_call (glGetShaderInfoLog (u32 shader) 1024) ;;
  do_call (printf shader_log_format [PInt shader; PStr (out_text r)]) ;;
  mret tt.

(** Lines 59-65. *)
Definition showprogramlog (shader : Z) : M unit :=
  r <- do_call (glGetProgramInfoLog (u32 shader) 1024) ;;
  do_call (printf program_log_format [PInt shader; PStr (out_text r)]) ;;
  mret tt.

(** Lines 80-177. *)
Definition init_ogl : M unit :=
  do_call bcm_host_init ;;
  (* Get an EGL display connection *)
  r <- do_call (eglGetDisplay EGL_DEFAULT_DISPLAY) ;;
  assign (set_display (u32 (ret r))) ;;
  s <- get_state ;;
  assert 114 (negb (display s =? EGL_NO_DISPLAY)) ;;
  check 115 ;;
  (* Initialize the EGL display connection *)
  r <- do_call (eglInitialize (display s)) ;;
  assert 119 (negb (EGL_FALSE =? u32 (ret r))) ;;
  check 120 ;;
  (* Get an appropriate EGL frame buffer configuration *)
  r <- do_call (eglChooseConfig (display s) attribute_list 1) ;;
  let config := u32 (out1 r) in
  assert 124 (negb (EGL_FALSE =? u32 (ret r))) ;;
  check 125 ;;
  r <- do_call (eglBindAPI EGL_OPENGL_ES_API) ;;
  assert 129 (negb (EGL_FALSE =? u32 (ret r))) ;;
  check 130 ;;
  (* Create an EGL rendering context *)
  r <- do_call (eglCreateContext (display s) config EGL_NO_CONTEXT
                                 context_attributes) ;;
  assign (set_context (u32 (ret r))) ;;
  s <- get_state ;;
  assert 134 (negb (context s =? EGL_NO_CONTEXT)) ;;
  check 135 ;;
  (* Create an EGL window surface *)
  r <- do_call (graphics_get_display_size 0) ;;
  let success := s32 (ret r) in
  assign (set_screen_size (u32 (out1 r)) (u32 (out2 r))) ;;
  s <- get_state ;;
  assert 139 (success >=? 0) ;;
  let dst_rect := {| x := 0; y := 0;
                     width := s32 (screen_width s);
                     height := s32 (screen_height s) |} in
  let src_rect := {| x := 0; y := 0;
                     width := s32 (u32 (Z.shiftl (screen_width s) 16));
                     height := s32 (u32 (Z.shiftl (screen_height s) 16)) |} in
  r <- do_call (vc_dispmanx_display_open 0) ;;
  let dispman_display := u32 (ret r) in
  r <- do_call (vc_dispmanx_update_start 0) ;;
  let dispman_update := u32 (ret r) in
  r <- do_call (vc_dispmanx_element_add dispman_update dispman_display
                  0 dst_rect 0 src_rect DISPMANX_PROTECTION_NONE 0 0 0) ;;
  let dispman_element := u32 (ret r) in
  let nativewindow := {| element := dispman_element;
                         win_width := s32 (screen_width s);
                         win_height := s32 (screen_height s) |} in
  do_call (vc_dispmanx_update_submit_sync dispman_update) ;;
  check 162 ;;
  r <- do_call (eglCreateWindowSurface (display s) config nativewindow) ;;
  assign (set_surface (u32 (ret r))) ;;
  s <- get_state ;;
  assert 165 (negb (surface s =? EGL_NO_SURFACE)) ;;
  check 166 ;;
  (* Connect the context to the surface *)
  r <- do_call (eglMakeCurrent (display s) (surface s) (surface s)
                               (context s)) ;;
  assert 170 (negb (EGL_FALSE =? u32 (ret r))) ;;
  check 171 ;;
  (* Set background color and clear buffers *)
  do_call (glClearColor 0%float 0%float 0%float 1%float) ;;
  do_call (glClear GL_COLOR_BUFFER_BIT) ;;
  check 176.

(** Lines 193-249. *)
Definition init_scene : M unit :=
  (* Vertex shader *)
  r <- do_call (glCreateShader GL_VERTEX_SHADER) ;;
  assign (set_vshader (u32 (ret r))) ;;
  s <- get_state ;;
  do_call (glShaderSource (vshader s) 1 vShaderSource) ;;
  do_call (glCompileShader (vshader s)) ;;
  check 212 ;;
  (if negb (verbose s =? 0) then showlog (s32 (vshader s)) else mret tt) ;;
  (* Fragment shader *)
  r <- do_call (glCreateShader GL_FRAGMENT_SHADER) ;;
  assign (set_fshader (u32 (ret r))) ;;
  s <- get_state ;;
  do_call (glShaderSource (fshader s) 1 fShaderSource) ;;
  do_call (glCompileShader (fshader s)) ;;
  check 219 ;;
  (if negb (verbose s =? 0) then showlog (s32 (fshader s)) else mret tt) ;;
  (* Linked shader program *)
  r <- do_call glCreateProgram ;;
  assign (set_program (u32 (ret r))) ;;
  s <- get_state ;;
  do_call (glAttachShader (program s) (vshader s)) ;;
  do_call (glAttachShader (program s) (fshader s)) ;;
  do_call (glLinkProgram (program s)) ;;
  check 227 ;;
  (if negb (verbose s =? 0) then showprogramlog (s32 (program s))
   else mret tt) ;;
  (* Shader resources are no longer needed after compiling and linking *)
  do_call (glDeleteShader (vshader s)) ;;
  do_call (glDeleteShader (fshader s)) ;;
  (* Get the "vertex" attribute location: a [GLint] stored in a [GLuint] *)
  r <- do_call (glGetAttribLocation (program s) "vertex") ;;
  assign (set_attr_vertex (u32 (s32 (ret r)))) ;;
  (* Upload triangle vertex data to a buffer *)
  r <- do_call (glGenBuffers 1) ;;
  assign (set_vbo_triangle (u32 (out1 r))) ;;
  s <- get_state ;;
  check 246 ;;
  do_call (glBindBuffer GL_ARRAY_BUFFER (vbo_triangle s)) ;;
  do_call (glBufferData GL_ARRAY_BUFFER (sizeof_floats triangle_vertex_data)
                        triangle_vertex_data GL_STATIC_DRAW) ;;
  mret tt.

(** Lines 265-273. *)
Definition render (delta : Z) : M unit :=
  do_call (printf delta_format [PInt delta]) ;;
  s <- get_state ;;
  do_call (glUseProgram (program s)) ;;
  do_call (glVertexAttribPointer (attr_vertex s) 3 GL_FLOAT 0
                                 (3 * sizeof_GLfloat) 0) ;;
  do_call (glEnableVertexAttribArray (attr_vertex s)) ;;
  do_call (glDrawArrays GL_TRIANGLES 0 3) ;;
  mret tt.

(** The argument expression of line 313,
    [(tv.tv_sec - tv_last.tv_sec) * 1e6 + tv.tv_usec - tv_last.tv_usec]:
    the difference of the seconds is taken in [long], the product with
    [1e6] and the two following operations in [double], and the value is
    converted to the [long] parameter of [render]. *)
Definition elapsed_double (tv tv_last : timeval) : float :=
  PrimFloat.sub
    (PrimFloat.add
       (PrimFloat.mul (double_of_long (slong (tv_sec tv - tv_sec tv_last)))
                      1e6%float)
       (double_of_long (tv_usec tv)))
    (double_of_long (tv_usec tv_last)).

Definition elapsed_micros (tv tv_last : timeval) : Z :=
  long_of_double (elapsed_double tv tv_last).

(** An automatic variable of [main]: [None] until the first store.
    Reading it before that yields whatever the stack slot holds. *)
Definition read_local (w : World) (v : option timeval) : timeval :=
  match v with
  | Some t => t
  | None => stack_garbage w
  end.

(** The body of the render loop, lines 308-318.  [tv_last] is the local
    of [main]; the body returns its value after line 314. *)
Definition frame (tv_last : option timeval) : M (option timeval) :=
  (* Clear *)
  do_call (glClear GL_COLOR_BUFFER_BIT) ;;
  (* Draw *)
  r <- do_call gettimeofday ;;
  let tv := {| tv_sec := slong (out1 r); tv_usec := slong (out2 r) |} in
  w <- ask ;;
  render (elapsed_micros tv (read_local w tv_last)) ;;
  let tv_last := Some tv in
  (* Update the display by swapping front/back buffers *)
  s <- get_state ;;
  do_call (eglSwapBuffers (display s) (surface s)) ;;
  check 318 ;;
  mret tv_last.

(** How a bounded run of a [while] loop ends: the condition became
    false, or the bound on the number of iterations was reached with
    the loop still going. *)
Inductive loop_end (L : Type) :=
| LoopExit (l : L)
| StillLooping (l : L).
Arguments LoopExit {L} l.
Arguments StillLooping {L} l.

(** [while (cond) body], run for at most [fuel] iterations. *)
Fixpoint while {L} (fuel : nat) (cond : L -> Z) (body : L -> M L) (l : L)
  : M (loop_end L) :=
  if cond l =? 0 then mret (LoopExit l)
  else match fuel with
       | O => mret (StillLooping l)
       | S fuel' => l' <- body l ;; while fuel' cond body l'
       end.

(** Lines 306-319: [while(1) { ... }]. *)
Definition render_loop (fuel : nat) (tv_last : option timeval)
  : M (loop_end (option timeval)) :=
  while fuel (fun _ => 1) frame tv_last.

(** Lines 288-327.  [Some c]: [main] returned [c]; [None]: the process
    is still in the render loop after [fuel] iterations. *)
Definition main (fuel : nat) : M (option Z) :=
  (* Clear application state *)
  assign (fun _ => zero_state) ;;
  (* Start OGLES *)
  init_ogl ;;
  (* Create simple fragment and vertex shaders, and load geometry buffers *)
  init_scene ;;
  (* Set the viewport to fill the screen *)
  s <- get_state ;;
  do_call (glViewport 0 0 (s32 (screen_width s)) (s32 (screen_height s))) ;;
  (* Render loop; [tv_last] is declared at line 291 without initializer *)
  e <- render_loop fuel None ;;
  match e with
  | StillLooping _ => mret None
  | LoopExit _ =>
      (* Cleanup *)
      s <- get_state ;;
      do_call (glDeleteProgram (program s)) ;;
      do_call (glDeleteBuffers 1 (vbo_triangle s)) ;;
      (* Exit *)
      mret (Some 0)
  end.

(** The process at its start: static storage is zero, no call made. *)
Definition boot : machine := {| gl := zero_state; clock := 0 |}.

Definition run (w : World) (fuel : nat) : list event * result (option Z) :=
  main fuel w boot.

(** ** Some worlds *)

Definition ok_response : response :=
  {| ret := 1; out1 := 1; out2 := 1; out_text := EmptyString |}.

Definition no_error : response :=
  {| ret := 0; out1 := 0; out2 := 0; out_text := EmptyString |}.

(** Every call succeeds: handles and booleans are 1, the display is
    1920x1080, [glGetError] is [GL_NO_ERROR], and the clock advances by
    one second per call made. *)
Definition happy_oracle (n : nat) (c : call) : response :=
  match c with
  | glGetError => no_error
  | graphics_get_display_size _ =>
      {| ret := 0; out1 := 1920; out2 := 1080; out_text := EmptyString |}
  | gettimeofday =>
      {| ret := 0; out1 := Z.of_nat n; out2 := 0; out_text := EmptyString |}
  | _ => ok_response
  end.

Definition happy_world : World :=
  {| oracle := happy_oracle;
     stack_garbage := {| tv_sec := 0; tv_usec := 0 |} |}.

(** [main] up to the render loop (lines 293-303), and from it on. *)
Definition setup : M unit :=
  assign (fun _ => zero_state) ;;
  init_ogl ;;
  init_scene ;;
  s <- get_state ;;
  do_call (glViewport 0 0 (s32 (screen_width s)) (s32 (screen_height s))) ;;
  mret tt.

Definition loop_and_cleanup (fuel : nat) : M (option Z) :=
  e <- render_loop fuel None ;;
  match e with
  | StillLooping _ => mret None
  | LoopExit _ =>
      s <- get_state ;;
      do_call (glDeleteProgram (program s)) ;;
      do_call (glDeleteBuffers 1 (vbo_triangle s)) ;;
      mret (Some 0)
  end.

(** ** Classifying calls and events *)

Definition is_clear (c : call) : bool :=
  match c with glClear _ => true | _ => false end.
Definition is_draw (c : call) : bool :=
  match c with glDrawArrays _ _ _ => true | _ => false end.
Definition is_swap (c : call) : bool :=
  match c with eglSwapBuffers _ _ => true | _ => false end.
Definition is_clear_draw_swap (c : call) : bool :=
  is_clear c || is_draw c || is_swap c.

Definition is_upload (c : call) : bool :=
  match c with glBufferData _ _ _ _ => true | _ => false end.

Definition is_cleanup (c : call) : bool :=
  match c with
  | glDeleteProgram _ | glDeleteBuffers _ _ => true
  | _ => false
  end.

Definition is_log (c : call) : bool :=
  match c with
  | glGetShaderInfoLog _ _ | glGetProgramInfoLog _ _ => true
  | printf fmt _ =>
      String.eqb fmt shader_log_format || String.eqb fmt program_log_format
  | _ => false
  end.

Definition is_printf (c : call) : bool :=
  match c with printf _ _ => true | _ => false end.

Definition is_link (c : call) : bool :=
  match c with glLinkProgram _ => true | _ => false end.
Definition is_delete_shader (c : call) : bool :=
  match c with glDeleteShader _ => true | _ => false end.
Definition is_lookup (c : call) : bool :=
  match c with glGetAttribLocation _ _ => true | _ => false end.

(** Calls that bring a display, context, surface, window element,
    shader, program or buffer (or its storage) into being, and calls
    that destroy one. *)
Definition creates_resource (c : call) : bool :=
  match c with
  | eglGetDisplay _ | eglInitialize _ | eglCreateContext _ _ _ _
  | vc_dispmanx_display_open _ | vc_dispmanx_update_start _
  | vc_dispmanx_element_add _ _ _ _ _ _ _ _ _ _
  | eglCreateWindowSurface _ _ _
  | glCreateShader _ | glCreateProgram | glGenBuffers _
  | glBufferData _ _ _ _ => true
  | _ => false
  end.

Definition destroys_resource (c : call) : bool :=
  match c with
  | glDeleteShader _ | glDeleteProgram _ | glDeleteBuffers _ _ => true
  | _ => false
  end.

(** The vertex-attribute index a per-frame call is given. *)
Definition attrib_index (c : call) : option Z :=
  match c with
  | glVertexAttribPointer i _ _ _ _ _ => Some i
  | glEnableVertexAttribArray i => Some i
  | _ => None
  end.

(** The value of the attribute lookup, as the [GLint] it returns. *)
Definition lookup_result (es : list event) : option Z :=
  match find (fun e => is_lookup (fst e)) es with
  | Some (_, r) => Some (s32 (ret r))
  | None => None
  end.


(** The failures the code asserts on: lines 114-176, 212-246 and 318. *)
Definition asserted_failure (e : event) : bool :=
  match e with
  | (eglGetDisplay _, r) => u32 (ret r) =? EGL_NO_DISPLAY
  | (eglInitialize _, r) | (eglChooseConfig _ _ _, r) | (eglBindAPI _, r)
  | (eglMakeCurrent _ _ _ _, r) => EGL_FALSE =? u32 (ret r)
  | (eglCreateContext _ _ _ _, r) => u32 (ret r) =? EGL_NO_CONTEXT
  | (eglCreateWindowSurface _ _ _, r) => u32 (ret r) =? EGL_NO_SURFACE
  | (graphics_get_display_size _, r) => negb (s32 (ret r) >=? 0)
  | (glGetError, r) => negb (u32 (ret r) =? 0)
  | _ => false
  end.

Definition is_nil {A} (l : list A) : bool :=
  match l with [] => true | _ => false end.

(** [fatal_last es ab]: the first event of [es] that reports an
    asserted failure is the last event of [es] and the run aborted
    ([ab]); without such an event the run did not abort. *)
Fixpoint fatal_last (es : list event) (ab : bool) : bool :=
  match es with
  | [] => negb ab
  | e :: es' =>
      if asserted_failure e then ab && is_nil es' else fatal_last es' ab
  end.

(** The part of a list from the first element that satisfies [p]. *)
Fixpoint from_first {A} (p : A -> bool) (l : list A) : list A :=
  match l with
  | [] => []
  | a :: l' => if p a then l else from_first p l'
  end.

(** ** Describing runs *)

Definition tick (m : machine) : machine :=
  {| gl := gl m; clock := S (clock m) |}.

Definition update (f : OPENGL_STATE_T -> OPENGL_STATE_T) (m : machine)
  : machine :=
  {| gl := f (gl m); clock := clock m |}.

(** [after pre c w m Q]: when [c] runs from [m] in the world [w], the
    events [pre] followed by the events of [c], and the result of [c],
    satisfy [Q]. *)
Definition after {A} (pre : list event) (c : M A) (w : World) (m : machine)
  (Q : list event -> result A -> Prop) : Prop :=
  Q (pre ++ events (c w m)) (outcome (c w m)).

(** The answers of the oracle to the calls [cs], the first of which is
    call number [n]. *)
Fixpoint answer (w : World) (n : nat) (cs : list call) : list event :=
  match cs with
  | [] => []
  | c :: cs' => (c, oracle w n c) :: answer w (S n) cs'
  end.

(** The time stamp the frame started at [m] reads, the value it hands
    to [render], and the calls it makes. *)
Definition frame_tv (w : World) (m : machine) : timeval :=
  let r := oracle w (S (clock m)) gettimeofday in
  {| tv_sec := slong (out1 r); tv_usec := slong (out2 r) |}.

Definition frame_delta (w : World) (tv_last : option timeval) (m : machine)
  : Z :=
  elapsed_micros (frame_tv w m) (read_local w tv_last).

Definition frame_calls (s : OPENGL_STATE_T) (delta : Z) : list call :=
  [ glClear GL_COLOR_BUFFER_BIT;
    gettimeofday;
    printf delta_format [PInt delta];
    glUseProgram (program s);
    glVertexAttribPointer (attr_vertex s) 3 GL_FLOAT 0 12 0;
    glEnableVertexAttribArray (attr_vertex s);
    glDrawArrays GL_TRIANGLES 0 3;
    eglSwapBuffers (display s) (surface s);
    glGetError ].

Definition frame_end (m : machine) : machine :=
  {| gl := gl m; clock := 9 + clock m |}.

(** Clear, draw, swap: what one frame shows of itself. *)
Definition clear_draw_swap (s : OPENGL_STATE_T) : list call :=
  [ glClear GL_COLOR_BUFFER_BIT;
    glDrawArrays GL_TRIANGLES 0 3;
    eglSwapBuffers (display s) (surface s) ].

(** The one upload of [init_scene], line 248. *)
Definition the_upload : call :=
  glBufferData GL_ARRAY_BUFFER 36
    [ (-1)%float; (-1)%float; 0%float;
      1%float;    (-1)%float; 0%float;
      0%float;    1%float;    0%float ]
    GL_STATIC_DRAW.

(** ** More worlds *)

Definition answer_with (z : Z) : response :=
  {| ret := z; out1 := 0; out2 := 0; out_text := EmptyString |}.

(** Everything succeeds, but the linked program has no attribute named
    [vertex]: the lookup returns -1 and raises no error. *)
Definition world_without_attribute : World :=
  {| oracle := fun n c =>
       match c with
       | glGetAttribLocation _ _ => answer_with (-1)
       | _ => happy_oracle n c
       end;
     stack_garbage := {| tv_sec := 0; tv_usec := 0 |} |}.

(** [eglInitialize] returns [EGL_FALSE]. *)
Definition world_without_egl : World :=
  {| oracle := fun n c =>
       match c with
       | eglInitialize _ => answer_with EGL_FALSE
       | _ => happy_oracle n c
       end;
     stack_garbage := {| tv_sec := 0; tv_usec := 0 |} |}.

(** The clock reads 11 s 100000 us at every [gettimeofday]. *)
Definition world_at_t1 : World :=
  {| oracle := fun n c =>
       match c with
       | gettimeofday =>
           {| ret := 0; out1 := 11; out2 := 100000; out_text := EmptyString |}
       | _ => happy_oracle n c
       end;
     stack_garbage := {| tv_sec := 0; tv_usec := 0 |} |}.

(** The happy world over another content of the stack. *)
Definition happy_world_over (garbage : timeval) : World :=
  {| oracle := happy_oracle; stack_garbage := garbage |}.

(** ** Predicates on runs used below *)

Definition is_none {A} (o : option A) : bool :=
  match o with None => true | Some _ => false end.

Definition quiet_call (c : call) : bool :=
  negb (is_printf c || is_cleanup c || is_swap c || is_log c)
  && is_none (attrib_index c).

(** From the link to the buffer: the six calls that start at
    [glLinkProgram], and where the result of the lookup goes. *)
Definition link_to_buffer (g : OPENGL_STATE_T) : list call :=
  [ glLinkProgram (program g);
    glGetError;
    glDeleteShader (vshader g);
    glDeleteShader (fshader g);
    glGetAttribLocation (program g) "vertex";
    glGenBuffers 1 ].

Definition is_link_delete_lookup (c : call) : bool :=
  is_link c || is_delete_shader c || is_lookup c.

Definition lookup_post (es : list event) (g : OPENGL_STATE_T) : Prop :=
  existsb is_lookup (map fst es) = true ->
  firstn 6 (from_first is_link (map fst es)) = link_to_buffer g
  /\ filter is_link_delete_lookup (map fst es)
     = [ glLinkProgram (program g);
         glDeleteShader (vshader g);
         glDeleteShader (fshader g);
         glGetAttribLocation (program g) "vertex" ]
  /\ firstn 2 (from_first is_lookup (map fst es))
     = [ glGetAttribLocation (program g) "vertex"; glGenBuffers 1 ]
  /\ option_map u32 (lookup_result es) = Some (attr_vertex g).

(** ** Further predicates on runs *)

Definition rect_eqb (a b : VC_RECT_T) : bool :=
  (x a =? x b) && (y a =? y b)
  && (width a =? width b) && (height a =? height b).

(** The geometry a call is given agrees with the display size that the
    record [g] holds: the destination rectangle and the native window
    span the screen from the origin, the source rectangle is the same
    size shifted left by 16 bits, the viewport fills the screen. *)
Definition geometry_ok (g : OPENGL_STATE_T) (c : call) : bool :=
  match c with
  | vc_dispmanx_element_add _ _ _ dst _ src _ _ _ _ =>
      rect_eqb dst {| x := 0; y := 0;
                      width := s32 (screen_width g);
                      height := s32 (screen_height g) |}
      && rect_eqb src {| x := 0; y := 0;
                         width := s32 (u32 (Z.shiftl (screen_width g) 16));
                         height := s32 (u32 (Z.shiftl (screen_height g) 16)) |}
  | eglCreateWindowSurface _ _ win =>
      (win_width win =? s32 (screen_width g))
      && (win_height win =? s32 (screen_height g))
  | glViewport vx vy vw vh =>
      (vx =? 0) && (vy =? 0)
      && (vw =? s32 (screen_width g)) && (vh =? s32 (screen_height g))
  | _ => true
  end.

(** The handle a call is given is the one the record [g] holds. *)
Definition handles_ok (g : OPENGL_STATE_T) (c : call) : bool :=
  match c with
  | eglInitialize d | eglChooseConfig d _ _ | eglCreateContext d _ _ _
  | eglCreateWindowSurface d _ _ => d =? display g
  | eglMakeCurrent d dr rd ctx =>
      (d =? display g) && (dr =? surface g) && (rd =? surface g)
      && (ctx =? context g)
  | eglSwapBuffers d s => (d =? display g) && (s =? surface g)
  | glShaderSource sh _ src =>
      if String.eqb src vShaderSource then sh =? vshader g
      else sh =? fshader g
  | glCompileShader sh | glDeleteShader sh =>
      (sh =? vshader g) || (sh =? fshader g)
  | glAttachShader p sh =>
      (p =? program g) && ((sh =? vshader g) || (sh =? fshader g))
  | glLinkProgram p | glGetAttribLocation p _ | glUseProgram p =>
      p =? program g
  | glBindBuffer _ b => b =? vbo_triangle g
  | glVertexAttribPointer i _ _ _ _ _ | glEnableVertexAttribArray i =>
      i =? attr_vertex g
  | _ => true
  end.

Definition is_get_display (c : call) : bool :=
  match c with eglGetDisplay _ => true | _ => false end.
Definition is_display_size (c : call) : bool :=
  match c with graphics_get_display_size _ => true | _ => false end.
Definition is_create_context (c : call) : bool :=
  match c with eglCreateContext _ _ _ _ => true | _ => false end.
Definition is_create_surface (c : call) : bool :=
  match c with eglCreateWindowSurface _ _ _ => true | _ => false end.
Definition is_create_shader (type : Z) (c : call) : bool :=
  match c with glCreateShader t => t =? type | _ => false end.
Definition is_create_program (c : call) : bool :=
  match c with glCreateProgram => true | _ => false end.
Definition is_gen_buffers (c : call) : bool :=
  match c with glGenBuffers _ => true | _ => false end.

(** What the first call that satisfies [p] was answered; all zero when
    there is no such call. *)
Definition first_response (p : call -> bool) (es : list event) : response :=
  match find (fun e => p (fst e)) es with
  | Some (_, r) => r
  | None => no_error
  end.

(** The state record, read off the answers the libraries gave. *)
Definition state_of (es : list event) : OPENGL_STATE_T :=
  {| screen_width := u32 (out1 (first_response is_display_size es));
     screen_height := u32 (out2 (first_response is_display_size es));
     display := u32 (ret (first_response is_get_display es));
     surface := u32 (ret (first_response is_create_surface es));
     context := u32 (ret (first_response is_create_context es));
     vshader :=
       u32 (ret (first_response (is_create_shader GL_VERTEX_SHADER) es));
     fshader :=
       u32 (ret (first_response (is_create_shader GL_FRAGMENT_SHADER) es));
     program := u32 (ret (first_response is_create_program es));
     attr_vertex := u32 (s32 (ret (first_response is_lookup es)));
     vbo_triangle := u32 (out1 (first_response is_gen_buffers es));
     verbose := 0 |}.

Definition creates_handle (c : call) : bool :=
  is_display_size c || is_get_display c || is_create_surface c
  || is_create_context c || is_create_shader GL_VERTEX_SHADER c
  || is_create_shader GL_FRAGMENT_SHADER c || is_create_program c
  || is_lookup c || is_gen_buffers c.

(** The name of the library function a call goes to. *)
Definition call_name (c : call) : string :=
  match c with
  | bcm_host_init => "bcm_host_init"
  | eglGetDisplay _ => "eglGetDisplay"
  | eglInitialize _ => "eglInitialize"
  | eglChooseConfig _ _ _ => "eglChooseConfig"
  | eglBindAPI _ => "eglBindAPI"
  | eglCreateContext _ _ _ _ => "eglCreateContext"
  | graphics_get_display_size _ => "graphics_get_display_size"
  | vc_dispmanx_display_open _ => "vc_dispmanx_display_open"
  | vc_dispmanx_update_start _ => "vc_dispmanx_update_start"
  | vc_dispmanx_element_add _ _ _ _ _ _ _ _ _ _ => "vc_dispmanx_element_add"
  | vc_dispmanx_update_submit_sync _ => "vc_dispmanx_update_submit_sync"
  | eglCreateWindowSurface _ _ _ => "eglCreateWindowSurface"
  | eglMakeCurrent _ _ _ _ => "eglMakeCurrent"
  | eglSwapBuffers _ _ => "eglSwapBuffers"
  | glGetError => "glGetError"
  | glClearColor _ _ _ _ => "glClearColor"
  | glClear _ => "glClear"
  | glCreateShader _ => "glCreateShader"
  | glShaderSource _ _ _ => "glShaderSource"
  | glCompileShader _ => "glCompileShader"
  | glGetShaderInfoLog _ _ => "glGetShaderInfoLog"
  | glCreateProgram => "glCreateProgram"
  | glAttachShader _ _ => "glAttachShader"
  | glLinkProgram _ => "glLinkProgram"
  | glGetProgramInfoLog _ _ => "glGetProgramInfoLog"
  | glDeleteShader _ => "glDeleteShader"
  | glGetAttribLocation _ _ => "glGetAttribLocation"
  | glGenBuffers _ => "glGenBuffers"
  | glBindBuffer _ _ => "glBindBuffer"
  | glBufferData _ _ _ _ => "glBufferData"
  | glUseProgram _ => "glUseProgram"
  | glVertexAttribPointer _ _ _ _ _ _ => "glVertexAttribPointer"
  | glEnableVertexAttribArray _ => "glEnableVertexAttribArray"
  | glDrawArrays _ _ _ => "glDrawArrays"
  | glViewport _ _ _ _ => "glViewport"
  | glDeleteProgram _ => "glDeleteProgram"
  | glDeleteBuffers _ _ => "glDeleteBuffers"
  | gettimeofday => "gettimeofday"
  | printf _ _ => "printf"
  end.

(** The library functions of lines 82-303, in the order of the text. *)
Definition setup_script : list string :=
  [ "bcm_host_init";
    "eglGetDisplay"; "glGetError";
    "eglInitialize"; "glGetError";
    "eglChooseConfig"; "glGetError";
    "eglBindAPI"; "glGetError";
    "eglCreateContext"; "glGetError";
    "graphics_get_display_size";
    "vc_dispmanx_display_open"; "vc_dispmanx_update_start";
    "vc_dispmanx_element_add"; "vc_dispmanx_update_submit_sync";
    "glGetError";
    "eglCreateWindowSurface"; "glGetError";
    "eglMakeCurrent"; "glGetError";
    "glClearColor"; "glClear"; "glGetError";
    "glCreateShader"; "glShaderSource"; "glCompileShader"; "glGetError";
    "glCreateShader"; "glShaderSource"; "glCompileShader"; "glGetError";
    "glCreateProgram"; "glAttachShader"; "glAttachShader";
    "glLinkProgram"; "glGetError";
    "glDeleteShader"; "glDeleteShader";
    "glGetAttribLocation";
    "glGenBuffers"; "glGetError";
    "glBindBuffer"; "glBufferData";
    "glViewport" ]%string.

(** The time stamps a run read, and the values it printed as elapsed
    microseconds, in the order of the events. *)
Fixpoint time_stamps (es : list event) : list timeval :=
  match es with
  | [] => []
  | (gettimeofday, r) :: es' =>
      {| tv_sec := slong (out1 r); tv_usec := slong (out2 r) |}
      :: time_stamps es'
  | _ :: es' => time_stamps es'
  end.

Fixpoint printed_deltas (es : list event) : list Z :=
  match es with
  | [] => []
  | (printf fmt [PInt d], _) :: es' =>
      if String.eqb fmt delta_format then d :: printed_deltas es'
      else printed_deltas es'
  | _ :: es' => printed_deltas es'
  end.

(** The elapsed times between consecutive time stamps, the first one
    taken against [last]. *)
Fixpoint deltas (last : timeval) (ts : list timeval) : list Z :=
  match ts with
  | [] => []
  | t :: ts' => elapsed_micros t last :: deltas t ts'
  end.

(** The events of a run that belong to the logs of [init_scene]. *)
Definition log_events (es : list event) : list event :=
  filter (fun e => is_log (fst e)) es.

Definition is_bind_or_upload (c : call) : bool :=
  match c with
  | glBindBuffer _ _ | glBufferData _ _ _ _ => true
  | _ => false
  end.

(** A state record as [memset] leaves it, but with the flag set. *)
Definition verbose_state : OPENGL_STATE_T :=
  {| screen_width := 0; screen_height := 0; display := 0; surface := 0;
     context := 0; vshader := 0; fshader := 0; program := 0;
     attr_vertex := 0; vbo_triangle := 0; verbose := 1 |}.

(** Every event of [es] is an answer of the oracle of [w] to the call
    it records. *)
Definition answered (w : World) (es : list event) : Prop :=
  Forall (fun e => exists n, snd e = oracle w n (fst e)) es.

(** A program whose events are all answers of the oracle. *)
Definition honest {A} (c : M A) : Prop :=
  forall w m, answered w (events (c w m)).

(** The happy world with a screen 40000 pixels wide. *)
Definition world_with_wide_screen : World :=
  {| oracle := fun n c =>
       match c with
       | graphics_get_display_size _ =>
           {| ret := 0; out1 := 40000; out2 := 1080;
              out_text := EmptyString |}
       | _ => happy_oracle n c
       end;
     stack_garbage := {| tv_sec := 0; tv_usec := 0 |} |}.

(** ** Integers as binary64 numbers *)

(** The number of binary digits of [n]. *)
Definition digits (n : positive) : Z := Z.log2 (Zpos n) + 1.

(** The binary64 number of sign [s] and magnitude [n], for [n] below
    2^53: a mantissa of 53 bits with the exponent that goes with it. *)
Definition canon (s : bool) (n : positive) : spec_float :=
  S754_finite s (Z.to_pos (Zpos n * 2 ^ (53 - digits n))) (digits n - 53).

Definition SFZ (z : Z) : spec_float :=
  match z with
  | Z0 => S754_zero false
  | Zpos n => canon false n
  | Zneg n => canon true n
  end.

(** The nearest value of type [long]. *)
Definition saturate (z : Z) : Z := Z.max LONG_MIN (Z.min LONG_MAX z).

(** Line 313 in integers: the seconds are subtracted in [long], the
    rest is exact, and the conversion to [long] saturates. *)
Definition micros_between (t last : timeval) : Z :=
  saturate (slong (tv_sec t - tv_sec last) * 1000000
            + tv_usec t - tv_usec last).

(** The elapsed microseconds between two time stamps. *)
Definition true_elapsed (t last : timeval) : Z :=
  (tv_sec t - tv_sec last) * 1000000 + tv_usec t - tv_usec last.

Fixpoint elapsed_chain (last : timeval) (ts : list timeval) : list Z :=
  match ts with
  | [] => []
  | t :: ts' => micros_between t last :: elapsed_chain t ts'
  end.

Definition in_long (z : Z) : Prop := LONG_MIN <= z <= LONG_MAX.

(** * Properties *)

Arguments u32 : simpl never.
Arguments s32 : simpl never.
Arguments slong : simpl never.
Arguments elapsed_micros : simpl never.

(** ** Lists *)

Lemma from_first_app {A} (p : A -> bool) (l l' : list A) :
  existsb p l = true -> from_first p (l ++ l') = from_first p l ++ l'.
Proof.
  induction l as [|a l IH]; cbn; [discriminate|].
  destruct (p a); cbn; auto.
Qed.

Lemma firstn_from_first_app {A} (p : A -> bool) (n : nat) (l t : list A) :
  existsb p l = true ->
  List.length (firstn n (from_first p l)) = n ->
  firstn n (from_first p (l ++ t)) = firstn n (from_first p l).
Proof.
  intros E L. rewrite from_first_app by exact E. rewrite firstn_app.
  rewrite length_firstn in L.
  replace (n - List.length (from_first p l))%nat with O by lia.
  cbn [firstn]. now rewrite app_nil_r.
Qed.

Lemma from_first_nil {A} (p : A -> bool) (l : list A) :
  existsb p l = false -> from_first p l = [].
Proof.
  induction l as [|a l IH]; cbn; [reflexivity|].
  destruct (p a); cbn; [discriminate|exact IH].
Qed.

Lemma find_none_forallb {A} (p : A -> bool) (l : list A) :
  forallb (fun a => negb (p a)) l = true -> find p l = None.
Proof.
  induction l as [|a l IH]; cbn; [reflexivity|].
  destruct (p a); cbn; [discriminate|exact IH].
Qed.

Lemma find_app_none {A} (p : A -> bool) (l l' : list A) :
  find p l = None -> find p (l ++ l') = find p l'.
Proof.
  induction l as [|a l IH]; cbn; [reflexivity|].
  destruct (p a); [discriminate|exact IH].
Qed.

Lemma find_app_some {A} (p : A -> bool) (l l' : list A) (a : A) :
  find p l = Some a -> find p (l ++ l') = Some a.
Proof.
  induction l as [|b l IH]; cbn; [discriminate|].
  destruct (p b); [trivial|exact IH].
Qed.

Lemma filter_nil_forallb {A} (p : A -> bool) (l : list A) :
  forallb (fun a => negb (p a)) l = true -> filter p l = [].
Proof.
  induction l as [|a l IH]; cbn; [reflexivity|].
  destruct (p a); cbn; [discriminate|exact IH].
Qed.

Lemma existsb_false_forallb {A} (p : A -> bool) (l : list A) :
  forallb (fun a => negb (p a)) l = true -> existsb p l = false.
Proof.
  induction l as [|a l IH]; cbn; [reflexivity|].
  destruct (p a); cbn; [discriminate|exact IH].
Qed.

Lemma forallb_weaken {A} (p q : A -> bool) (l : list A) :
  (forall a, p a = true -> q a = true) ->
  forallb p l = true -> forallb q l = true.
Proof.
  intros Hpq. induction l as [|a l IH]; cbn; [trivial|].
  intros H. apply andb_true_iff in H as [Ha Hl].
  now rewrite (Hpq a Ha), (IH Hl).
Qed.


Lemma fatal_last_aborted (es : list event) :
  fatal_last es true = true ->
  exists pre e, es = pre ++ [e] /\ asserted_failure e = true.
Proof.
  induction es as [|e0 es IH]; cbn; [discriminate|].
  destruct (asserted_failure e0) eqn:F.
  - destruct es; [|discriminate]. intros _. now exists [], e0.
  - intros H. destruct (IH H) as (pre & e & -> & Fe).
    now exists (e0 :: pre), e.
Qed.

Lemma fatal_last_app (es es' : list event) (ab : bool) :
  fatal_last es false = true -> fatal_last es' ab = true ->
  fatal_last (es ++ es') ab = true.
Proof.
  induction es as [|e es IH]; cbn; [trivial|].
  destruct (asserted_failure e); [discriminate|exact IH].
Qed.

(** ** Rules for walking through a program, one statement at a time *)

Section Rules.
Context {A B : Type} (pre : list event) (w : World) (m : machine).
Context (Q : list event -> result B -> Prop).

Lemma after_assoc {C} (c : M C) (h : C -> M A) (k : A -> M B) :
  after pre (mbind c (fun a => mbind (h a) k)) w m Q ->
  after pre (mbind (mbind c h) k) w m Q.
Proof.
  unfold after, events, outcome, mbind.
  destruct (c w m) as [es [a m'|l m']]; [|exact (fun H => H)].
  destruct (h a w m') as [es' [b m''|l m'']]; [|exact (fun H => H)].
  destruct (k b w m'') as [es'' r]. cbn. rewrite ?app_assoc.
  exact (fun H => H).
Qed.

Lemma after_ret (a : A) (k : A -> M B) :
  after pre (k a) w m Q -> after pre (mbind (mret a) k) w m Q.
Proof.
  unfold after, events, outcome, mbind, mret. now destruct (k a w m).
Qed.

Lemma after_call (c : call) (k : response -> M B) :
  (forall r, after (pre ++ [(c, r)]) (k r) w (tick m) Q) ->
  after pre (mbind (do_call c) k) w m Q.
Proof.
  intros H. specialize (H (oracle w (clock m) c)). revert H.
  unfold after, events, outcome, mbind, do_call, tick.
  destruct (k _ w _). cbn. now rewrite <- app_assoc.
Qed.

Lemma after_assign f (k : unit -> M B) :
  after pre (k tt) w (update f m) Q ->
  after pre (mbind (assign f) k) w m Q.
Proof.
  unfold after, events, outcome, mbind, assign, update.
  now destruct (k _ w _).
Qed.

Lemma after_get (k : OPENGL_STATE_T -> M B) :
  after pre (k (gl m)) w m Q -> after pre (mbind get_state k) w m Q.
Proof.
  unfold after, events, outcome, mbind, get_state. now destruct (k _ w _).
Qed.

Lemma after_ask (k : World -> M B) :
  after pre (k w) w m Q -> after pre (mbind ask k) w m Q.
Proof.
  unfold after, events, outcome, mbind, ask. now destruct (k _ w _).
Qed.

Lemma after_assert line (b : bool) (k : unit -> M B) :
  (b = true -> after pre (k tt) w m Q) ->
  (b = false -> Q pre (Abort line m)) ->
  after pre (mbind (assert line b) k) w m Q.
Proof.
  unfold after, events, outcome, mbind, assert.
  destruct b; intros H1 H2.
  - specialize (H1 eq_refl). destruct (k tt w m). exact H1.
  - cbn. rewrite app_nil_r. now apply H2.
Qed.

Lemma after_if (b : bool) (c1 c2 : M A) (k : A -> M B) :
  (b = true -> after pre (mbind c1 k) w m Q) ->
  (b = false -> after pre (mbind c2 k) w m Q) ->
  after pre (mbind (if b then c1 else c2) k) w m Q.
Proof. destruct b; auto. Qed.

Lemma after_done (b : B) : Q pre (Done b m) -> after pre (mret b) w m Q.
Proof. unfold after. cbn. now rewrite app_nil_r. Qed.
End Rules.

Lemma after_start {A} (c : M A) (w : World) (m : machine)
  (Q : list event -> result A -> Prop) :
  after [] c w m Q -> Q (events (c w m)) (outcome (c w m)).
Proof. exact (fun H => H). Qed.

Ltac tidy :=
  cbv beta zeta;
  cbn [app tick update gl clock
       screen_width screen_height display surface context vshader fshader
       program attr_vertex vbo_triangle verbose
       set_screen_size set_display set_surface set_context set_vshader
       set_fshader set_program set_attr_vertex set_vbo_triangle zero_state].

Ltac absurd_branch H := exfalso; cbn in H; discriminate H.

Ltac walk_step :=
  lazymatch goal with
  | |- after _ (mbind (mbind _ _) _) _ _ _ => apply after_assoc
  | |- after _ (mbind (mret _) _) _ _ _ => apply after_ret
  | |- after _ (mbind (do_call _) _) _ _ _ => apply after_call; intros ?r
  | |- after _ (mbind (assign _) _) _ _ _ => apply after_assign
  | |- after _ (mbind get_state _) _ _ _ => apply after_get
  | |- after _ (mbind ask _) _ _ _ => apply after_ask
  | |- after _ (mbind (assert _ _) _) _ _ _ =>
      apply after_assert; intros ?H
  | |- after _ (mbind (if _ then _ else _) _) _ _ _ =>
      apply after_if;
      let H := fresh "H" in intros H; try absurd_branch H
  | |- after _ (mret _) _ _ _ => apply after_done
  end;
  tidy.

(** Walk through [setup]; what is left is one goal per way it can end. *)
Ltac walk_setup w m Q :=
  apply (after_start setup w m Q);
  unfold setup, init_ogl, init_scene, check, showlog, showprogramlog;
  repeat walk_step.

(** Turn the recorded outcomes of the [assert]s into rewrite rules. *)
Ltac use_asserts :=
  repeat match goal with
         | H : negb _ = true |- _ => apply negb_true_iff in H
         | H : negb _ = false |- _ => apply negb_false_iff in H
         end;
  repeat match goal with
         | H : _ = true |- _ => rewrite H; clear H
         | H : _ = false |- _ => rewrite H; clear H
         end.

(** ** The frame *)

Lemma frame_events (w : World) (tv_last : option timeval) (m : machine) :
  events (frame tv_last w m) =
  answer w (clock m) (frame_calls (gl m) (frame_delta w tv_last m)).
Proof.
  unfold frame_delta, frame_tv.
  cbv beta iota zeta delta
    [frame render check mbind do_call get_state ask assert mret events fst].
  now destruct (u32 _ =? 0).
Qed.

Lemma frame_outcome (w : World) (tv_last : option timeval) (m : machine) :
  outcome (frame tv_last w m) =
  if u32 (ret (oracle w (8 + clock m) glGetError)) =? 0
  then Done (Some (frame_tv w m)) (frame_end m)
  else Abort 318 (frame_end m).
Proof.
  unfold frame_end, frame_tv.
  cbv beta iota zeta delta
    [frame render check mbind do_call get_state ask assert mret outcome snd].
  now destruct (u32 _ =? 0).
Qed.

Lemma calls_answer (w : World) (n : nat) (cs : list call) :
  map fst (answer w n cs) = cs.
Proof.
  revert n. induction cs as [|c cs IH]; intros n; cbn; [|rewrite IH]; easy.
Qed.

Lemma frame_calls_map (w : World) (tv_last : option timeval) (m : machine) :
  map fst (events (frame tv_last w m)) =
  frame_calls (gl m) (frame_delta w tv_last m).
Proof. now rewrite frame_events, calls_answer. Qed.

Lemma frame_calls_spec (w : World) (tv_last : option timeval) (m : machine) :
  calls (frame tv_last w m) = frame_calls (gl m) (frame_delta w tv_last m).
Proof. apply frame_calls_map. Qed.

(** ** The loop *)

(** Induction over the iterations of the render loop.  There is no case
    for [LoopExit]: a run of the loop ends with the fuel used up or in a
    frame that aborts. *)
Lemma render_loop_ind (w : World) (g : OPENGL_STATE_T)
  (P : nat -> list event -> result (loop_end (option timeval)) -> Prop) :
  (forall tv m, gl m = g -> P O [] (Done (StillLooping tv) m)) ->
  (forall fuel tv m,
      gl m = g -> outcome (frame tv w m) = Abort 318 (frame_end m) ->
      P (S fuel) (events (frame tv w m)) (Abort 318 (frame_end m))) ->
  (forall fuel tv m es r,
      gl m = g ->
      outcome (frame tv w m) = Done (Some (frame_tv w m)) (frame_end m) ->
      P fuel es r -> P (S fuel) (events (frame tv w m) ++ es) r) ->
  forall fuel tv m,
    gl m = g ->
    P fuel (events (render_loop fuel tv w m))
           (outcome (render_loop fuel tv w m)).
Proof.
  intros Hstop Habort Hframe.
  induction fuel as [|fuel IH]; intros tv m Hg.
  - cbn. now apply Hstop.
  - unfold render_loop. cbn [while]. cbn [Z.eqb].
    fold (render_loop fuel).
    unfold mbind, events, outcome.
    pose proof (frame_outcome w tv m) as Ho. unfold outcome in Ho.
    specialize (Habort fuel tv m Hg). specialize (Hframe fuel tv m).
    unfold events, outcome in Habort, Hframe.
    destruct (frame tv w m) as [es r]. cbn [fst snd] in *.
    destruct (u32 _ =? 0); subst r.
    + specialize (IH (Some (frame_tv w m)) (frame_end m) Hg).
      unfold events, outcome in IH.
      destruct (render_loop fuel _ w _) as [es' r']. cbn [fst snd] in *.
      now apply Hframe.
    + now apply Habort.
Qed.

Lemma render_loop_forallb (p : call -> bool) (w : World) fuel tv m :
  (forall d, forallb p (frame_calls (gl m) d) = true) ->
  forallb p (calls (render_loop fuel tv w m)) = true.
Proof.
  intros Hp. unfold calls.
  apply (render_loop_ind w (gl m)
           (fun _ es _ => forallb p (map fst es) = true)); trivial.
  - intros _ tv' m' Hg _. now rewrite frame_calls_map, Hg.
  - intros _ tv' m' es r Hg _ Hes.
    now rewrite map_app, forallb_app, frame_calls_map, Hg, Hp.
Qed.

Lemma render_loop_gl (w : World) fuel tv m :
  gl (final (outcome (render_loop fuel tv w m))) = gl m.
Proof.
  apply (render_loop_ind w (gl m) (fun _ _ r => gl (final r) = gl m));
    trivial.
Qed.

(** The frames of a run of the loop, counted: as many as the fuel
    allows unless one of them aborts. *)
Lemma render_loop_frames (w : World) fuel tv m :
  exists n,
    (n <= fuel)%nat
    /\ filter is_clear_draw_swap (calls (render_loop fuel tv w m))
       = List.concat (repeat (clear_draw_swap (gl m)) n)
    /\ (aborted (outcome (render_loop fuel tv w m)) = false -> n = fuel).
Proof.
  unfold calls.
  apply (render_loop_ind w (gl m)
           (fun fuel es r =>
              exists n,
                (n <= fuel)%nat
                /\ filter is_clear_draw_swap (map fst es)
                   = List.concat (repeat (clear_draw_swap (gl m)) n)
                /\ (aborted r = false -> n = fuel))); trivial.
  - intros tv' m' _. now exists O.
  - intros fuel' tv' m' Hg _. exists 1%nat. repeat split.
    + lia.
    + now rewrite frame_calls_map, Hg.
    + discriminate.
  - intros fuel' tv' m' es r Hg _ (n & Hn & Hes & Hr). exists (S n).
    repeat split.
    + lia.
    + now rewrite map_app, filter_app, Hes, frame_calls_map, Hg.
    + intros Ha. now rewrite (Hr Ha).
Qed.

(** ** [main] is [setup] followed by the loop *)

Lemma mbind_assoc_eq {A B C} (c : M A) (h : A -> M B) (k : B -> M C) w m :
  mbind (mbind c h) k w m = mbind c (fun a => mbind (h a) k) w m.
Proof.
  unfold mbind.
  destruct (c w m) as [es [a m'|l m']]; [|reflexivity].
  destruct (h a w m') as [es' [b m''|l m'']]; [|reflexivity].
  destruct (k b w m'') as [es'' r]. now rewrite app_assoc.
Qed.

Lemma mbind_ext {A B} (c : M A) (k k' : A -> M B) w m :
  (forall a w' m', k a w' m' = k' a w' m') ->
  mbind c k w m = mbind c k' w m.
Proof.
  intros E. unfold mbind.
  destruct (c w m) as [es [a m'|l m']]; [|reflexivity]. now rewrite E.
Qed.

Lemma mbind_ret_eq {A B} (a : A) (k : A -> M B) w m :
  mbind (mret a) k w m = k a w m.
Proof. unfold mbind, mret. now destruct (k a w m). Qed.

Lemma main_split (fuel : nat) (w : World) (m : machine) :
  main fuel w m = (setup ;; loop_and_cleanup fuel) w m.
Proof.
  symmetry. unfold main, setup.
  do 5 (eapply eq_trans; [apply mbind_assoc_eq|];
        apply mbind_ext; intros ? ? ?).
  exact (mbind_ret_eq tt (fun _ => loop_and_cleanup fuel) _ _).
Qed.

(** The loop never hands control to the cleanup code. *)
Lemma loop_and_cleanup_run (fuel : nat) (w : World) (m : machine) :
  events (loop_and_cleanup fuel w m) = events (render_loop fuel None w m)
  /\ (outcome (loop_and_cleanup fuel w m) = Done None (final (outcome (render_loop fuel None w m)))
      /\ aborted (outcome (render_loop fuel None w m)) = false
      \/ outcome (loop_and_cleanup fuel w m) = Abort 318 (final (outcome (render_loop fuel None w m)))
      /\ aborted (outcome (render_loop fuel None w m)) = true).
Proof.
  unfold loop_and_cleanup, mbind, events, outcome.
  pose proof (render_loop_ind w (gl m)
    (fun _ _ r => match r with
                | Done (LoopExit _) _ => False
                | Done (StillLooping _) _ => True
                | Abort l _ => l = 318%nat
                end)) as H.
  specialize (H (fun _ _ _ => I) (fun _ _ _ _ _ => eq_refl)
                (fun _ _ _ _ _ _ _ P => P) fuel None m eq_refl).
  unfold outcome in H.
  destruct (render_loop fuel None w m) as [es [[tv|tv] m'|l m']];
    cbn [fst snd] in *.
  - contradiction.
  - cbn. rewrite app_nil_r. auto.
  - subst l. cbn. auto.
Qed.

Lemma mbind_run {A B} (c : M A) (k : A -> M B) w m :
  events (mbind c k w m) =
    events (c w m) ++ match outcome (c w m) with
                      | Done a m' => events (k a w m')
                      | Abort _ _ => []
                      end
  /\ outcome (mbind c k w m) =
       match outcome (c w m) with
       | Done a m' => outcome (k a w m')
       | Abort l m' => Abort l m'
       end.
Proof.
  unfold mbind, events, outcome.
  destruct (c w m) as [es [a m'|l m']]; cbn.
  - now destruct (k a w m').
  - now rewrite app_nil_r.
Qed.

(** A run is the setup, and if that did not abort, the frames. *)
Lemma run_cases (w : World) (fuel : nat) :
  let s := setup w boot in
  let l := render_loop fuel None w (final (outcome s)) in
  if aborted (outcome s)
  then events (run w fuel) = events s
       /\ aborted (outcome (run w fuel)) = true
       /\ final (outcome (run w fuel)) = final (outcome s)
  else events (run w fuel) = events s ++ events l
       /\ aborted (outcome (run w fuel)) = aborted (outcome l)
       /\ final (outcome (run w fuel)) = final (outcome l)
       /\ forall c m', outcome (run w fuel) <> Done (Some c) m'.
Proof.
  cbv zeta. unfold run. rewrite main_split.
  destruct (mbind_run setup (fun _ => loop_and_cleanup fuel) w boot)
    as [-> ->].
  destruct (outcome (setup w boot)) as [[] m'|l m']; cbn [aborted final].
  - destruct (loop_and_cleanup_run fuel w m') as [-> [[-> Ha]|[-> Ha]]];
      rewrite Ha; cbn [aborted final]; repeat split; discriminate.
  - now rewrite app_nil_r.
Qed.

(** ** Failures the code asserts on *)

Ltac close_fatal_last :=
  cbn [fatal_last asserted_failure aborted is_nil andb negb];
  use_asserts;
  cbn [fatal_last asserted_failure aborted is_nil andb negb];
  reflexivity.

Lemma setup_fatal_last (w : World) (m : machine) :
  fatal_last (events (setup w m)) (aborted (outcome (setup w m))) = true.
Proof.
  walk_setup w m (fun es (r : result unit) => fatal_last es (aborted r) = true).
  all: close_fatal_last.
Qed.

Lemma frame_fatal_last (w : World) (tv : option timeval) (m : machine) :
  fatal_last (events (frame tv w m)) (aborted (outcome (frame tv w m))) = true.
Proof.
  rewrite frame_events, frame_outcome.
  cbn [frame_calls answer fatal_last asserted_failure is_nil plus].
  now destruct (u32 _ =? 0).
Qed.

Lemma render_loop_fatal_last (w : World) fuel tv (m : machine) :
  fatal_last (events (render_loop fuel tv w m))
             (aborted (outcome (render_loop fuel tv w m))) = true.
Proof.
  apply (render_loop_ind w (gl m)
           (fun _ es r => fatal_last es (aborted r) = true)); trivial.
  - intros _ tv' m' _ Ho. pose proof (frame_fatal_last w tv' m') as H.
    now rewrite Ho in H.
  - intros _ tv' m' es r _ Ho Hes. apply fatal_last_app; [|exact Hes].
    pose proof (frame_fatal_last w tv' m') as H. now rewrite Ho in H.
Qed.

Lemma run_fatal_last (w : World) (fuel : nat) :
  fatal_last (events (run w fuel)) (aborted (outcome (run w fuel))) = true.
Proof.
  pose proof (run_cases w fuel) as H. cbv zeta in H.
  pose proof (setup_fatal_last w boot) as Hs.
  destruct (aborted (outcome (setup w boot))).
  - destruct H as (-> & -> & _). exact Hs.
  - destruct H as (-> & -> & _). apply fatal_last_app; [exact Hs|].
    apply render_loop_fatal_last.
Qed.

(** ** What [setup] does and does not do *)

Lemma setup_uploads (w : World) (m : machine) :
  filter is_upload (calls (setup w m)) =
  if aborted (outcome (setup w m)) then [] else [the_upload].
Proof.
  unfold calls.
  walk_setup w m
    (fun (es : list event) (r : result unit) =>
       filter is_upload (map fst es) =
       if aborted r then [] else [the_upload]).
  all: reflexivity.
Qed.

(** Nothing is printed, no log is fetched, nothing is cleaned up, no
    buffer is swapped and no vertex attribute is used during the
    setup. *)
Lemma setup_quiet (w : World) (m : machine) :
  forallb quiet_call (calls (setup w m)) = true.
Proof.
  unfold calls.
  walk_setup w m
    (fun (es : list event) (_ : result unit) =>
       forallb quiet_call (map fst es) = true).
  all: reflexivity.
Qed.

Lemma setup_lacks (p : call -> bool) (w : World) (m : machine) :
  (forall c, quiet_call c = true -> p c = false) ->
  forallb (fun c => negb (p c)) (map fst (events (setup w m))) = true.
Proof.
  intros Hp. generalize (setup_quiet w m). unfold calls.
  apply forallb_weaken. intros c Hc. now rewrite (Hp c Hc).
Qed.

Ltac by_cases_on_call :=
  let c := fresh "c" in
  let H := fresh "H" in
  intros c H; destruct c; try reflexivity; cbn in H; discriminate H.

Lemma setup_verbose (w : World) (m : machine) :
  verbose (gl (final (outcome (setup w m)))) = 0.
Proof.
  walk_setup w m
    (fun (_ : list event) (r : result unit) => verbose (gl (final r)) = 0).
  all: reflexivity.
Qed.

Lemma setup_lookup (w : World) (m : machine) :
  lookup_post (events (setup w m)) (gl (final (outcome (setup w m)))).
Proof.
  walk_setup w m
    (fun (es : list event) (r : result unit) => lookup_post es (gl (final r))).
  all: intros E; try discriminate E; repeat split.
Qed.

(** The frames do not disturb what [lookup_post] says. *)
Lemma lookup_post_app (es tail : list event) (g : OPENGL_STATE_T) :
  forallb (fun c => negb (is_link_delete_lookup c)) (map fst tail) = true ->
  lookup_post es g -> lookup_post (es ++ tail) g.
Proof.
  intros Ht Hes. unfold lookup_post in *.
  assert (Hl : existsb is_lookup (map fst tail) = false).
  { apply existsb_false_forallb. revert Ht. apply forallb_weaken.
    intros c. unfold is_link_delete_lookup.
    destruct (is_lookup c); [rewrite orb_true_r|]; easy. }
  rewrite map_app, existsb_app, Hl, orb_false_r. intros E.
  destruct (Hes E) as (H1 & H2 & H3 & H4). repeat split.
  - rewrite firstn_from_first_app, H1; [reflexivity| |now rewrite H1].
    destruct (existsb is_link (map fst es)) eqn:K; [reflexivity|].
    now rewrite (from_first_nil _ _ K) in H1.
  - rewrite filter_app, H2, (filter_nil_forallb _ _ Ht). reflexivity.
  - rewrite firstn_from_first_app, H3; [reflexivity|exact E|now rewrite H3].
  - unfold lookup_result in *.
    destruct (find (fun e => is_lookup (fst e)) es) as [e|] eqn:F;
      [|discriminate].
    now rewrite (find_app_some _ _ tail _ F).
Qed.

Lemma lookup_result_exists (es : list event) (v : Z) :
  lookup_result es = Some v -> existsb is_lookup (map fst es) = true.
Proof.
  unfold lookup_result. induction es as [|e es IH]; cbn; [discriminate|].
  destruct (is_lookup (fst e)); [reflexivity|exact IH].
Qed.

(** ** A run: the setup, then events of frames, the state unchanged *)

Lemma run_tail (w : World) (fuel : nat) :
  exists tail,
    events (run w fuel) = events (setup w boot) ++ tail
    /\ (forall p : call -> bool,
          (forall d, forallb p (frame_calls
                                  (gl (final (outcome (run w fuel)))) d)
                     = true) ->
          forallb p (map fst tail) = true)
    /\ gl (final (outcome (run w fuel)))
       = gl (final (outcome (setup w boot))).
Proof.
  pose proof (run_cases w fuel) as H. cbv zeta in H.
  destruct (aborted (outcome (setup w boot))).
  - destruct H as (-> & _ & ->). exists []. now rewrite app_nil_r.
  - destruct H as (-> & _ & -> & _). eexists. split; [reflexivity|]. split.
    + intros p Hp. apply (render_loop_forallb p). intros d.
      rewrite <- (render_loop_gl w fuel None). apply Hp.
    + apply render_loop_gl.
Qed.

Lemma run_lookup (w : World) (fuel : nat) :
  lookup_post (events (run w fuel)) (gl (final (outcome (run w fuel)))).
Proof.
  destruct (run_tail w fuel) as (tail & -> & Hp & ->).
  apply lookup_post_app; [|apply setup_lookup].
  now apply Hp.
Qed.

(** X8: conversely, a run that aborted ends in a failure the code
    asserts on: no assertion fails for another reason, and the failure
    is the last thing that happened. *)
Lemma abort_has_asserted_cause (w : World) (fuel : nat) :
  aborted (outcome (run w fuel)) = true ->
  exists pre e,
    events (run w fuel) = pre ++ [e] /\ asserted_failure e = true.
Proof.
  intros Ha. pose proof (run_fatal_last w fuel) as H. rewrite Ha in H.
  now apply fatal_last_aborted.
Qed.

(** * The claims *)

(** ** C1: failures and the integrity check *)




(** The same world, from the side of the events: the lookup that
    failed is followed by fourteen more calls, and the run has not
    aborted. *)
Example unchecked_lookup_run :
  let o := run world_without_attribute 1%nat in
  nth_error (events o) 39%nat
    = Some (glGetAttribLocation 1 "vertex", answer_with (-1))
  /\ List.length (events o) = 54%nat
  /\ aborted (outcome o) = false.
Proof. vm_compute. repeat split. Qed.

(** ** C2: the elapsed time of the example *)

(** C2: in a frame that reads the time t1 = (11 s, 100000 us) while
    [tv_last] holds t0 = (10 s, 500000 us), the value computed at line
    313 and handed to [render] is 600000, and [render] prints it. *)
Theorem elapsed_time_example (w : World) (m : machine) :
  frame_tv w m = {| tv_sec := 11; tv_usec := 100000 |} ->
  elapsed_micros {| tv_sec := 11; tv_usec := 100000 |}
                 {| tv_sec := 10; tv_usec := 500000 |} = 600000
  /\ calls (frame (Some {| tv_sec := 10; tv_usec := 500000 |}) w m)
     = [ glClear GL_COLOR_BUFFER_BIT;
         gettimeofday;
         printf delta_format [PInt 600000];
         glUseProgram (program (gl m));
         glVertexAttribPointer (attr_vertex (gl m)) 3 GL_FLOAT 0 12 0;
         glEnableVertexAttribArray (attr_vertex (gl m));
         glDrawArrays GL_TRIANGLES 0 3;
         eglSwapBuffers (display (gl m)) (surface (gl m));
         glGetError ].
Proof.
  intros H.
  assert (E : elapsed_micros {| tv_sec := 11; tv_usec := 100000 |}
                             {| tv_sec := 10; tv_usec := 500000 |} = 600000)
    by (vm_compute; reflexivity).
  split; [exact E|].
  rewrite frame_calls_spec. unfold frame_delta.
  rewrite H. cbn [read_local]. rewrite E. reflexivity.
Qed.

Lemma elapsed_time_example_witness :
  frame_tv world_at_t1 boot = {| tv_sec := 11; tv_usec := 100000 |}
  /\ In (printf delta_format [PInt 600000])
        (calls (frame (Some {| tv_sec := 10; tv_usec := 500000 |})
                      world_at_t1 boot)).
Proof.
  split; [vm_compute; reflexivity|].
  destruct (elapsed_time_example world_at_t1 boot) as [_ ->];
    [vm_compute; reflexivity|].
  cbn [In]. auto.
Defined.

(** The same in a whole run: the clock shows t0 in the first frame and
    t1 in the second; the second line printed is the 600000. *)
Example elapsed_time_second_frame :
  let w := {| oracle := fun n c =>
                match c with
                | gettimeofday =>
                    if (n <=? 46)%nat
                    then {| ret := 0; out1 := 10; out2 := 500000;
                            out_text := EmptyString |}
                    else {| ret := 0; out1 := 11; out2 := 100000;
                            out_text := EmptyString |}
                | _ => happy_oracle n c
                end;
              stack_garbage := {| tv_sec := 0; tv_usec := 0 |} |} in
  nth_error (filter is_printf (calls (run w 2%nat))) 1%nat
  = Some (printf delta_format [PInt 600000]).
Proof. vm_compute. reflexivity. Qed.

(** ** C3: the vertex data *)

(** The uploads of any run, aborted or not: the only [glBufferData] is
    the one of [init_scene]; it happens once if the setup gets through
    and not at all otherwise, and no frame uploads again. *)
Lemma uploads_of_run (w : World) (fuel : nat) :
  filter is_upload (calls (run w fuel)) =
  if aborted (outcome (setup w boot))
  then []
  else [ glBufferData GL_ARRAY_BUFFER (4 * 9)
           [ (-1)%float; (-1)%float; 0%float;
             1%float;    (-1)%float; 0%float;
             0%float;    1%float;    0%float ]
           GL_STATIC_DRAW ].
Proof.
  destruct (run_tail w fuel) as (tail & E & Hp & _).
  unfold calls. rewrite E, map_app, filter_app.
  rewrite (filter_nil_forallb is_upload (map fst tail)), app_nil_r.
  - apply setup_uploads.
  - now apply Hp.
Qed.

(** The events of the program are the oracle's answers. *)
Lemma honest_ret {A} (a : A) : honest (mret a).
Proof. intros w m. constructor. Qed.

Lemma honest_bind {A B} (c : M A) (k : A -> M B) :
  honest c -> (forall a, honest (k a)) -> honest (mbind c k).
Proof.
  intros Hc Hk w m. destruct (mbind_run c k w m) as [-> _].
  apply Forall_app. split; [apply Hc|].
  destruct (outcome (c w m)) as [a m'|l m']; [apply Hk|constructor].
Qed.

Lemma honest_call (c : call) : honest (do_call c).
Proof. intros w m. repeat constructor. now exists (clock m). Qed.

Lemma honest_assign f : honest (assign f).
Proof. intros w m. constructor. Qed.

Lemma honest_get : honest get_state.
Proof. intros w m. constructor. Qed.

Lemma honest_ask : honest ask.
Proof. intros w m. constructor. Qed.

Lemma honest_assert line b : honest (assert line b).
Proof. intros w m. unfold assert. destruct b; constructor. Qed.

Ltac show_honest :=
  repeat first
    [ apply honest_ret | apply honest_call | apply honest_assign
    | apply honest_get | apply honest_ask | apply honest_assert
    | apply honest_bind; [|intros ?]
    | match goal with
      | |- honest (if ?b then _ else _) => destruct b
      | |- honest (match ?e with LoopExit _ => _ | StillLooping _ => _ end) =>
          destruct e
      end ].

Lemma honest_frame (tv : option timeval) : honest (frame tv).
Proof. unfold frame, render, check. show_honest. Qed.

Lemma honest_render_loop (fuel : nat) :
  forall tv, honest (render_loop fuel tv).
Proof.
  induction fuel as [|fuel IH]; intros tv.
  - apply (honest_ret (StillLooping tv)).
  - change (render_loop (S fuel) tv)
      with (mbind (frame tv) (render_loop fuel)).
    apply honest_bind; [apply honest_frame|exact IH].
Qed.

Lemma honest_main (fuel : nat) : honest (main fuel).
Proof.
  unfold main, init_ogl, init_scene, check, showlog, showprogramlog.
  show_honest. apply honest_render_loop.
Qed.

(** In a world that never reports a failure the code asserts on, no
    run aborts. *)
Lemma untroubled_run (w : World) (fuel : nat) :
  (forall n c, asserted_failure (c, oracle w n c) = false) ->
  aborted (outcome (run w fuel)) = false.
Proof.
  intros Hw. destruct (aborted (outcome (run w fuel))) eqn:Ha; [|reflexivity].
  pose proof (run_fatal_last w fuel) as H. rewrite Ha in H.
  destruct (fatal_last_aborted _ H) as (pre & [c r] & E & F).
  pose proof (honest_main fuel w boot) as Hh. fold (run w fuel) in Hh.
  unfold answered in Hh. rewrite E in Hh.
  apply Forall_app in Hh as [_ Hh]. inversion Hh as [|? ? [n Hn] _]; subst.
  cbn [fst snd] in Hn. rewrite Hn, Hw in F. discriminate F.
Qed.

(** C3: in every world in which no step fails that the code asserts
    on, a run of any length uploads vertex data exactly once: nine
    floats, (-1,-1,0), (1,-1,0), (0,1,0) in this order, 36 bytes, with
    usage [GL_STATIC_DRAW]; no frame uploads or changes buffer data
    again. *)
Theorem vertex_data_uploaded_once (w : World) (fuel : nat) :
  (forall n c, asserted_failure (c, oracle w n c) = false) ->
  filter is_upload (calls (run w fuel))
  = [ glBufferData GL_ARRAY_BUFFER (4 * 9)
        [ (-1)%float; (-1)%float; 0%float;
          1%float;    (-1)%float; 0%float;
          0%float;    1%float;    0%float ]
        GL_STATIC_DRAW ].
Proof.
  intros Hw. rewrite uploads_of_run.
  pose proof (untroubled_run w fuel Hw) as Ha.
  pose proof (run_cases w fuel) as H. cbv zeta in H.
  destruct (aborted (outcome (setup w boot))); [|reflexivity].
  destruct H as (_ & Hr & _). congruence.
Qed.

Lemma happy_world_reports_no_failure (n : nat) (c : call) :
  asserted_failure (c, oracle happy_world n c) = false.
Proof. destruct c; reflexivity. Qed.

Lemma vertex_data_uploaded_once_witness :
  (forall n c, asserted_failure (c, oracle happy_world n c) = false)
  /\ map (fun c => match c with
                   | glBufferData _ size data _ =>
                       (size, List.length data, data)
                   | _ => (0, O, [])
                   end)
         (filter is_upload (calls (run happy_world 2%nat)))
     = [ (36, 9%nat,
          [ (-1)%float; (-1)%float; 0%float;
            1%float;    (-1)%float; 0%float;
            0%float;    1%float;    0%float ]) ].
Proof.
  split; [exact happy_world_reports_no_failure|].
  rewrite (vertex_data_uploaded_once happy_world 2%nat
             happy_world_reports_no_failure).
  reflexivity.
Defined.

(** ** C4: clear, draw, swap *)

(** C4: the clears, draws and swaps of one iteration of the loop are
    one [glClear] of the color buffer, then one [glDrawArrays] of 3
    vertices as [GL_TRIANGLES], then one [eglSwapBuffers], and those of
    a run of the loop are this triple repeated, once per iteration
    begun. *)
Theorem frame_is_clear_draw_swap (w : World) (fuel : nat)
  (tv : option timeval) (m : machine) :
  filter is_clear_draw_swap (calls (frame tv w m))
  = [ glClear GL_COLOR_BUFFER_BIT;
      glDrawArrays GL_TRIANGLES 0 3;
      eglSwapBuffers (display (gl m)) (surface (gl m)) ]
  /\ exists n,
       (n <= fuel)%nat
       /\ filter is_clear_draw_swap (calls (render_loop fuel tv w m))
          = List.concat
              (repeat [ glClear GL_COLOR_BUFFER_BIT;
                        glDrawArrays GL_TRIANGLES 0 3;
                        eglSwapBuffers (display (gl m)) (surface (gl m)) ]
                      n)
       /\ (aborted (outcome (render_loop fuel tv w m)) = true \/ n = fuel).
Proof.
  split.
  - now rewrite frame_calls_spec.
  - destruct (render_loop_frames w fuel tv m) as (n & Hn & E & Ha).
    exists n. repeat split; [exact Hn|exact E|].
    destruct (aborted (outcome (render_loop fuel tv w m)));
      [left; reflexivity|right; now apply Ha].
Qed.

(** ** C5: the loop never exits *)

(** C5: whatever the world does and however long the process runs,
    [main] does not return, and neither [glDeleteProgram] nor
    [glDeleteBuffers] is called. *)
Theorem render_loop_never_exits (w : World) (fuel : nat) :
  returned (outcome (run w fuel)) = false
  /\ forallb (fun c => negb (is_cleanup c)) (calls (run w fuel)) = true.
Proof.
  split.
  - pose proof (run_cases w fuel) as H. cbv zeta in H.
    destruct (aborted (outcome (setup w boot))).
    + destruct H as (_ & Ha & _).
      now destruct (outcome (run w fuel)).
    + destruct H as (_ & _ & _ & Hn).
      destruct (outcome (run w fuel)) as [[c|] m'|l m']; try reflexivity.
      now destruct (Hn c m').
  - destruct (run_tail w fuel) as (tail & E & Hp & _).
    unfold calls. rewrite E, map_app, forallb_app. apply andb_true_iff. split.
    + apply setup_lacks. by_cases_on_call.
    + now apply Hp.
Qed.

(** X9: the loop does go on: as long as no assertion fails, after
    [fuel] iterations the process is still in the loop and has swapped
    the buffers [fuel] times. *)
Lemma render_loop_keeps_going (w : World) (fuel : nat) :
  aborted (outcome (run w fuel)) = false ->
  exists m, outcome (run w fuel) = Done None m
            /\ List.length (filter is_swap (calls (run w fuel))) = fuel.
Proof.
  intros Ha.
  pose proof (run_cases w fuel) as H. cbv zeta in H.
  destruct (aborted (outcome (setup w boot))) eqn:Hs.
  - destruct H as (_ & Hab & _). congruence.
  - destruct H as (E & Hab & _ & Hn).
    destruct (outcome (run w fuel)) as [[c|] m'|l m'] eqn:Ho;
      [now destruct (Hn c m')| |discriminate].
    exists m'. split; [reflexivity|].
    unfold calls. rewrite E, map_app, filter_app, length_app.
    rewrite (filter_nil_forallb is_swap (map fst (events (setup w boot)))).
    + cbn [List.length plus].
      apply (render_loop_ind w (gl (final (outcome (setup w boot))))
               (fun fuel es r =>
                  aborted r = false ->
                  List.length (filter is_swap (map fst es)) = fuel));
        trivial.
      * discriminate.
      * intros f tv m es r Hg _ IH Hr.
        rewrite map_app, filter_app, length_app, frame_calls_map.
        cbn. now rewrite (IH Hr).
      * now rewrite <- Hab.
    + apply setup_lacks. by_cases_on_call.
Qed.

(** ** C6: the verbose flag *)

(** C6: [verbose] is zero when the process starts, is zero wherever a
    run stands after any number of iterations or at the assertion that
    ended it, and no run fetches or prints a shader or program log. *)
Theorem verbose_never_set (w : World) (fuel : nat) :
  verbose (gl boot) = 0
  /\ verbose (gl (final (outcome (run w fuel)))) = 0
  /\ forallb (fun c => negb (is_log c)) (calls (run w fuel)) = true.
Proof.
  destruct (run_tail w fuel) as (tail & E & Hp & Hg).
  split; [reflexivity|]. split.
  - rewrite Hg. apply setup_verbose.
  - unfold calls. rewrite E, map_app, forallb_app. apply andb_true_iff. split.
    + apply setup_lacks. by_cases_on_call.
    + now apply Hp.
Qed.

(** ** C7: shaders deleted after the link, one lookup *)

(** C7: in a run that reaches the attribute lookup, the calls from
    [glLinkProgram] on are the link, the [glGetError] of its check, the
    deletion of the vertex shader, the deletion of the fragment shader
    and then the lookup of [vertex]; the run has no other link, shader
    deletion or lookup; and [attr_vertex] holds the result of that one
    lookup wherever the run stands afterwards. *)
Theorem shaders_deleted_after_link (w : World) (fuel : nat) :
  existsb is_lookup (calls (run w fuel)) = true ->
  let g := gl (final (outcome (run w fuel))) in
  firstn 5 (from_first is_link (calls (run w fuel)))
  = [ glLinkProgram (program g);
      glGetError;
      glDeleteShader (vshader g);
      glDeleteShader (fshader g);
      glGetAttribLocation (program g) "vertex" ]
  /\ filter is_link_delete_lookup (calls (run w fuel))
     = [ glLinkProgram (program g);
         glDeleteShader (vshader g);
         glDeleteShader (fshader g);
         glGetAttribLocation (program g) "vertex" ]
  /\ option_map u32 (lookup_result (events (run w fuel)))
     = Some (attr_vertex g).
Proof.
  intros E g. destruct (run_lookup w fuel E) as (H1 & H2 & _ & H4).
  repeat split; [|exact H2|exact H4].
  unfold calls.
  change 5%nat with (Nat.min 5 6). rewrite <- firstn_firstn, H1.
  reflexivity.
Qed.

Lemma shaders_deleted_after_link_witness :
  existsb is_lookup (calls (run happy_world 1%nat)) = true
  /\ filter is_link_delete_lookup (calls (run happy_world 1%nat))
     = [ glLinkProgram 1; glDeleteShader 1; glDeleteShader 1;
         glGetAttribLocation 1 "vertex" ].
Proof.
  split; [vm_compute; reflexivity|].
  destruct (shaders_deleted_after_link happy_world 1%nat) as (_ & -> & _);
    [vm_compute; reflexivity|].
  vm_compute. reflexivity.
Defined.

(** ** C8: the loop leaves the state and the resources alone *)

(** C8: a run of the render loop, of any length and from any state,
    ends with every field of the state record as it found it and calls
    nothing that creates or destroys a resource; so the record a run of
    the program ends with is the one the setup left. *)
Theorem frames_leave_state_alone (w : World) (fuel : nat)
  (tv : option timeval) (m : machine) :
  gl (final (outcome (render_loop fuel tv w m))) = gl m
  /\ forallb (fun c => negb (creates_resource c || destroys_resource c))
             (calls (render_loop fuel tv w m)) = true
  /\ gl (final (outcome (run w fuel))) = gl (final (outcome (setup w boot))).
Proof.
  split; [apply render_loop_gl|]. split.
  - now apply render_loop_forallb.
  - now destruct (run_tail w fuel) as (tail & _ & _ & ->).
Qed.

(** ** C9: the first elapsed time *)

Lemma render_loop_S (fuel : nat) (tv : option timeval) w m :
  render_loop (S fuel) tv w m = mbind (frame tv) (render_loop fuel) w m.
Proof. reflexivity. Qed.

(** C9: [tv_last] has no value when the loop starts, so the first
    frame reads the garbage of its stack slot: the first line a run
    prints is the elapsed time between the first time stamp and that
    garbage. *)
Theorem first_delta_reads_garbage (w : World) (fuel : nat) :
  aborted (outcome (setup w boot)) = false ->
  find is_printf (calls (run w (S fuel)))
  = Some (printf delta_format
            [PInt (elapsed_micros
                     (frame_tv w (final (outcome (setup w boot))))
                     (stack_garbage w))]).
Proof.
  intros Hs.
  pose proof (run_cases w (S fuel)) as H. cbv zeta in H. rewrite Hs in H.
  destruct H as (E & _). unfold calls. rewrite E, map_app.
  rewrite find_app_none.
  - rewrite render_loop_S.
    destruct (mbind_run (frame None) (render_loop fuel) w
                (final (outcome (setup w boot)))) as [-> _].
    rewrite map_app. apply find_app_some.
    now rewrite frame_calls_map.
  - apply find_none_forallb. apply setup_lacks. by_cases_on_call.
Qed.

Lemma first_delta_reads_garbage_witness :
  aborted (outcome (setup happy_world boot)) = false
  /\ find is_printf (calls (run happy_world 1%nat))
     = Some (printf delta_format [PInt 46000000]).
Proof.
  split; [vm_compute; reflexivity|].
  rewrite (first_delta_reads_garbage happy_world 0%nat);
    [|vm_compute; reflexivity].
  vm_compute. reflexivity.
Defined.

(** The value depends on the garbage and on nothing the program
    stored: the same world over two stack contents prints two
    different first lines. *)
Example first_delta_is_indeterminate :
  let first_line g :=
    find is_printf (calls (run (happy_world_over g) 1%nat)) in
  first_line {| tv_sec := 0; tv_usec := 0 |}
    = Some (printf delta_format [PInt 46000000])
  /\ first_line {| tv_sec := 40; tv_usec := 250 |}
     = Some (printf delta_format [PInt 5999750]).
Proof. vm_compute. repeat split. Qed.

(** ** C10: a failed lookup wraps around *)

(** C10: when the lookup returns -1, [attr_vertex] holds 4294967295
    from then on, every [glVertexAttribPointer] and
    [glEnableVertexAttribArray] of the run is given that index, and the
    process just goes on from the lookup to [glGenBuffers]: no
    assertion looks at the value. *)
Theorem failed_lookup_wraps (w : World) (fuel : nat) :
  lookup_result (events (run w fuel)) = Some (-1) ->
  let g := gl (final (outcome (run w fuel))) in
  attr_vertex g = 4294967295
  /\ forallb (fun c => match attrib_index c with
                       | Some i => i =? 4294967295
                       | None => true
                       end)
             (calls (run w fuel)) = true
  /\ firstn 2 (from_first is_lookup (calls (run w fuel)))
     = [ glGetAttribLocation (program g) "vertex"; glGenBuffers 1 ].
Proof.
  intros L g.
  destruct (run_lookup w fuel (lookup_result_exists _ _ L))
    as (_ & _ & H3 & H4).
  rewrite L in H4. cbn [option_map] in H4.
  assert (Hg : attr_vertex g = 4294967295).
  { injection H4 as H4. fold g in H4. rewrite <- H4. reflexivity. }
  split; [exact Hg|]. split; [|exact H3].
  destruct (run_tail w fuel) as (tail & E & Hp & _).
  unfold calls. rewrite E, map_app, forallb_app. apply andb_true_iff. split.
  - generalize (setup_quiet w boot). unfold calls. apply forallb_weaken.
    intros c Hc. apply andb_true_iff in Hc as [_ Hc].
    now destruct (attrib_index c).
  - apply Hp. intros d. unfold g in Hg.
    cbn [frame_calls forallb attrib_index]. rewrite Hg. reflexivity.
Qed.

Lemma failed_lookup_wraps_witness :
  lookup_result (events (run world_without_attribute 1%nat)) = Some (-1)
  /\ attr_vertex (gl (final (outcome (run world_without_attribute 1%nat))))
     = 4294967295
  /\ In (glVertexAttribPointer 4294967295 3 GL_FLOAT 0 12 0)
        (calls (run world_without_attribute 1%nat))
  /\ In (glEnableVertexAttribArray 4294967295)
        (calls (run world_without_attribute 1%nat)).
Proof.
  split; [vm_compute; reflexivity|]. split.
  - apply (failed_lookup_wraps world_without_attribute 1%nat).
    vm_compute. reflexivity.
  - split; vm_compute; tauto.
Defined.

(** * Further properties of the code *)

(** ** Where the handles and the display size go *)

Lemma first_response_app (p : call -> bool) (es tail : list event) :
  forallb (fun c => negb (p c)) (map fst tail) = true ->
  first_response p (es ++ tail) = first_response p es.
Proof.
  intros Ht. unfold first_response.
  destruct (find (fun e => p (fst e)) es) as [e|] eqn:F.
  - now rewrite (find_app_some _ _ tail _ F).
  - rewrite (find_app_none _ _ tail F).
    replace (find (fun e => p (fst e)) tail) with (@None event);
      [reflexivity|].
    symmetry. apply find_none_forallb.
    rewrite forallb_forall in *. intros e He. apply Ht.
    now apply in_map.
Qed.

Lemma state_of_app (es tail : list event) :
  forallb (fun c => negb (creates_handle c)) (map fst tail) = true ->
  state_of (es ++ tail) = state_of es.
Proof.
  intros Ht. unfold state_of.
  rewrite !first_response_app; [reflexivity|..];
    (revert Ht; apply forallb_weaken; intros c Hc;
     apply negb_true_iff in Hc; apply negb_true_iff;
     unfold creates_handle in Hc;
     repeat (apply orb_false_iff in Hc as [Hc ?]); assumption).
Qed.

Lemma setup_state_of (w : World) (m : machine) :
  gl (final (outcome (setup w m))) = state_of (events (setup w m)).
Proof.
  walk_setup w m
    (fun (es : list event) (r : result unit) => gl (final r) = state_of es).
  all: reflexivity.
Qed.

Lemma rect_eqb_refl (a : VC_RECT_T) : rect_eqb a a = true.
Proof. unfold rect_eqb. now rewrite !Z.eqb_refl. Qed.

Lemma rect_eqb_eq (a b : VC_RECT_T) : rect_eqb a b = true -> a = b.
Proof.
  unfold rect_eqb. destruct a, b. cbn. intros H.
  repeat (apply andb_true_iff in H as [H ?]).
  repeat match goal with E : (_ =? _) = true |- _ =>
                           apply Z.eqb_eq in E end.
  now subst.
Qed.

Ltac close_eqb :=
  cbn [final]; tidy;
  cbn [forallb map fst final gl
       geometry_ok handles_ok rect_eqb x y width height
       win_width win_height element
       screen_width screen_height display surface context vshader fshader
       program attr_vertex vbo_triangle];
  tidy;
  repeat (rewrite ?Z.eqb_refl, ?rect_eqb_refl, ?orb_true_r; cbn [andb orb]);
  reflexivity.

Lemma setup_geometry (w : World) (m : machine) :
  forallb (geometry_ok (gl (final (outcome (setup w m)))))
          (calls (setup w m)) = true.
Proof.
  unfold calls.
  walk_setup w m
    (fun (es : list event) (r : result unit) =>
       forallb (geometry_ok (gl (final r))) (map fst es) = true).
  all: close_eqb.
Qed.

Lemma setup_handles (w : World) (m : machine) :
  forallb (handles_ok (gl (final (outcome (setup w m)))))
          (calls (setup w m)) = true.
Proof.
  unfold calls.
  walk_setup w m
    (fun (es : list event) (r : result unit) =>
       forallb (handles_ok (gl (final r))) (map fst es) = true).
  all: close_eqb.
Qed.

(** X1: wherever a run stands, the state record holds exactly what the
    libraries answered: the display, context and surface handles, the
    two shader handles, the program handle and the buffer name are the
    values the creating calls returned, the screen size is the one
    [graphics_get_display_size] wrote, the attribute location is the
    result of the lookup taken as unsigned, and [verbose] is zero; a
    field whose creating call has not been made yet is zero. *)
Theorem state_mirrors_answers (w : World) (fuel : nat) :
  gl (final (outcome (run w fuel))) = state_of (events (run w fuel)).
Proof.
  destruct (run_tail w fuel) as (tail & E & Hp & Hg).
  rewrite Hg, E, state_of_app; [apply setup_state_of|].
  now apply Hp.
Qed.

(** X2: every call of a run that takes a display, surface, context,
    shader, program, buffer or attribute handle is given the handle
    the state record holds; both surface arguments of
    [eglMakeCurrent] are the one window surface, and each shader
    source goes to its own shader. *)
Theorem calls_use_stored_handles (w : World) (fuel : nat) :
  forallb (handles_ok (gl (final (outcome (run w fuel)))))
          (calls (run w fuel)) = true.
Proof.
  destruct (run_tail w fuel) as (tail & E & Hp & Hg).
  unfold calls. rewrite E, map_app, forallb_app. apply andb_true_iff. split.
  - rewrite Hg. apply setup_handles.
  - apply Hp. intros d. cbn [frame_calls forallb handles_ok].
    now rewrite !Z.eqb_refl.
Qed.

Lemma run_geometry (w : World) (fuel : nat) :
  forallb (geometry_ok (gl (final (outcome (run w fuel)))))
          (calls (run w fuel)) = true.
Proof.
  destruct (run_tail w fuel) as (tail & E & Hp & Hg).
  unfold calls. rewrite E, map_app, forallb_app. apply andb_true_iff.
  split; [rewrite Hg; apply setup_geometry|].
  now apply Hp.
Qed.

(** X3: the window element, the native window of the EGL surface and
    the viewport are all given the screen size stored by
    [graphics_get_display_size]: destination rectangle and window span
    the screen from the origin, the source rectangle is that size
    shifted left by 16 bits (wrapping in 32 bits), and the viewport is
    (0, 0, width, height). *)
Theorem display_size_reaches_window (w : World) (fuel : nat) :
  let g := gl (final (outcome (run w fuel))) in
  let r := first_response is_display_size (events (run w fuel)) in
  forallb (geometry_ok g) (calls (run w fuel)) = true
  /\ screen_width g = u32 (out1 r)
  /\ screen_height g = u32 (out2 r).
Proof.
  cbv zeta. split; [apply run_geometry|].
  destruct (run_tail w fuel) as (tail & E & Hp & Hg).
  rewrite Hg, E, setup_state_of.
  rewrite first_response_app by now apply Hp.
  split; reflexivity.
Qed.

(** ** The source rectangle in 16.16 fixed point *)

Lemma s32_small (z : Z) : 0 <= z < 2 ^ 31 -> s32 z = z.
Proof. intros H. unfold s32. rewrite Z.mod_small; lia. Qed.

Lemma u32_small (z : Z) : 0 <= z < 2 ^ 32 -> u32 z = z.
Proof. intros H. unfold u32. now rewrite Z.mod_small. Qed.

Lemma shifted_size (z : Z) :
  0 <= z < 32768 -> s32 (u32 (Z.shiftl z 16)) = 65536 * z.
Proof.
  intros H. rewrite Z.shiftl_mul_pow2 by lia.
  rewrite u32_small, s32_small; lia.
Qed.

Lemma s32_range (z : Z) : - 2 ^ 31 <= s32 z < 2 ^ 31.
Proof.
  unfold s32. pose proof (Z.mod_pos_bound (z + 2 ^ 31) (2 ^ 32)). lia.
Qed.

Lemma u32_range (z : Z) : 0 <= u32 z < 2 ^ 32.
Proof. unfold u32. apply Z.mod_pos_bound. lia. Qed.

Lemma shifted_size_iff (z : Z) :
  0 <= z -> (s32 (u32 (Z.shiftl z 16)) = 65536 * z <-> z < 32768).
Proof.
  intros Hz. split.
  - intros E. pose proof (s32_range (u32 (Z.shiftl z 16))). lia.
  - intros H. apply shifted_size. lia.
Qed.

Lemma s32_exact_iff (z : Z) : 0 <= z -> (s32 z = z <-> z < 2 ^ 31).
Proof.
  intros Hz. split.
  - intros E. pose proof (s32_range z). lia.
  - intros H. apply s32_small. lia.
Qed.

Lemma run_screen_size (w : World) (fuel : nat) :
  let g := gl (final (outcome (run w fuel))) in
  0 <= screen_width g < 2 ^ 32 /\ 0 <= screen_height g < 2 ^ 32.
Proof.
  destruct (run_tail w fuel) as (tail & E & Hp & Hg).
  cbv zeta. rewrite Hg, setup_state_of. cbn [state_of screen_width screen_height].
  split; apply u32_range.
Qed.

(** X4: the window element is added with rectangles at the origin; its
    source rectangle holds the screen size in 16.16 fixed point, 65536
    times the pixel size, exactly when that size is below 32768 pixels;
    for every larger width or height the stored value is the wrapped
    product and differs from it.  Its destination rectangle holds the
    pixel size exactly when that is below 2^31. *)
Theorem source_rect_is_fixed_point (w : World) (fuel : nat)
  (u d l : Z) (dst : VC_RECT_T) (s : Z) (src : VC_RECT_T) (p a cl t : Z) :
  let g := gl (final (outcome (run w fuel))) in
  In (vc_dispmanx_element_add u d l dst s src p a cl t) (calls (run w fuel)) ->
  (x dst = 0 /\ y dst = 0 /\ x src = 0 /\ y src = 0)
  /\ (width src = 65536 * screen_width g <-> screen_width g < 32768)
  /\ (height src = 65536 * screen_height g <-> screen_height g < 32768)
  /\ (width dst = screen_width g <-> screen_width g < 2 ^ 31)
  /\ (height dst = screen_height g <-> screen_height g < 2 ^ 31).
Proof.
  intros g Hin.
  pose proof (run_geometry w fuel) as G. rewrite forallb_forall in G.
  specialize (G _ Hin). cbn [geometry_ok] in G. fold g in G.
  apply andb_true_iff in G as [G1 G2].
  apply rect_eqb_eq in G1, G2. subst dst src.
  destruct (run_screen_size w fuel) as [Hw Hh]. fold g in Hw, Hh.
  cbn [x y width height].
  split; [repeat split|].
  split; [apply shifted_size_iff; lia|].
  split; [apply shifted_size_iff; lia|].
  split; apply s32_exact_iff; lia.
Qed.

Lemma source_rect_is_fixed_point_witness :
  let src := {| x := 0; y := 0;
                width := - 1673527296; height := 70778880 |} in
  In (vc_dispmanx_element_add 1 1 0
        {| x := 0; y := 0; width := 40000; height := 1080 |} 0 src
        DISPMANX_PROTECTION_NONE 0 0 0)
     (calls (run world_with_wide_screen 0%nat))
  /\ width src <> 65536 * 40000
  /\ height src = 65536 * 1080.
Proof.
  cbv zeta.
  assert (Hin : In (vc_dispmanx_element_add 1 1 0
                      {| x := 0; y := 0; width := 40000; height := 1080 |} 0
                      {| x := 0; y := 0;
                         width := - 1673527296; height := 70778880 |}
                      DISPMANX_PROTECTION_NONE 0 0 0)
                   (calls (run world_with_wide_screen 0%nat))).
  { vm_compute. tauto. }
  split; [exact Hin|].
  destruct (source_rect_is_fixed_point world_with_wide_screen 0%nat
              _ _ _ _ _ _ _ _ _ _ Hin) as (_ & Hw & Hh & _).
  split.
  - intros E. apply Hw in E. vm_compute in E. discriminate E.
  - apply Hh. vm_compute. reflexivity.
Defined.

(** At 32768 pixels the shifted width turns negative, at 65536 it is
    zero, and at 65537 it is what a width of one pixel would give. *)
Example shifted_size_wraps :
  s32 (u32 (Z.shiftl 32768 16)) = - 2147483648
  /\ s32 (u32 (Z.shiftl 65536 16)) = 0
  /\ s32 (u32 (Z.shiftl 65537 16)) = 65536.
Proof. vm_compute. repeat split. Qed.

(** ** What a completed setup guarantees *)

Lemma setup_valid_handles (w : World) (m : machine) :
  aborted (outcome (setup w m)) = false ->
  let g := gl (final (outcome (setup w m))) in
  display g <> EGL_NO_DISPLAY
  /\ context g <> EGL_NO_CONTEXT
  /\ surface g <> EGL_NO_SURFACE.
Proof.
  walk_setup w m
    (fun (_ : list event) (r : result unit) =>
       aborted r = false ->
       let g := gl (final r) in
       display g <> EGL_NO_DISPLAY
       /\ context g <> EGL_NO_CONTEXT
       /\ surface g <> EGL_NO_SURFACE).
  all: intros A; try discriminate A.
  cbn [final]; tidy.
  repeat match goal with
         | H : negb _ = true |- _ => apply negb_true_iff in H
         end.
  repeat split; apply Z.eqb_neq; assumption.
Qed.

(** X5: when the setup has completed, the display, the context and the
    surface the frames work with are not the null handles, whatever
    the world answered. *)
Theorem frames_have_valid_handles (w : World) (fuel : nat) :
  aborted (outcome (setup w boot)) = false ->
  let g := gl (final (outcome (run w fuel))) in
  display g <> EGL_NO_DISPLAY
  /\ context g <> EGL_NO_CONTEXT
  /\ surface g <> EGL_NO_SURFACE.
Proof.
  intros A. destruct (run_tail w fuel) as (tail & _ & _ & Hg).
  cbv zeta. rewrite Hg. now apply setup_valid_handles.
Qed.

Lemma frames_have_valid_handles_witness :
  aborted (outcome (setup happy_world boot)) = false
  /\ display (gl (final (outcome (run happy_world 2%nat)))) <> EGL_NO_DISPLAY.
Proof.
  split; [vm_compute; reflexivity|].
  apply (frames_have_valid_handles happy_world 2%nat).
  vm_compute. reflexivity.
Defined.

(** ** The order of the setup *)

(** X6: whatever the libraries answer, the setup makes its calls in the
    one order of the program text, each once: the calls of a setup are
    a beginning of the 45 calls from [bcm_host_init] to [glViewport],
    and the whole of them exactly when no assertion failed.  Nothing is
    retried, skipped or reordered. *)
Theorem setup_follows_script (w : World) (m : machine) :
  map call_name (calls (setup w m))
  = firstn (List.length (calls (setup w m))) setup_script
  /\ aborted (outcome (setup w m))
     = negb (List.length (calls (setup w m)) =? 45)%nat.
Proof.
  unfold calls.
  walk_setup w m
    (fun (es : list event) (r : result unit) =>
       map call_name (map fst es)
       = firstn (List.length (map fst es)) setup_script
       /\ aborted r = negb (List.length (map fst es) =? 45)%nat).
  all: split; reflexivity.
Qed.

(** ** Drawing needs a completed setup *)

Lemma setup_never_draws (w : World) (m : machine) :
  forallb (fun c => negb (is_draw c)) (calls (setup w m)) = true.
Proof.
  unfold calls.
  walk_setup w m
    (fun (es : list event) (_ : result unit) =>
       forallb (fun c => negb (is_draw c)) (map fst es) = true).
  all: reflexivity.
Qed.

(** X7: a run that is given at least one iteration draws the triangle
    if and only if every assertion of the setup passed; after a failed
    setup there is no [glDrawArrays] at all. *)
Theorem draws_iff_setup_completes (w : World) (fuel : nat) :
  existsb is_draw (calls (run w (S fuel)))
  = negb (aborted (outcome (setup w boot))).
Proof.
  pose proof (run_cases w (S fuel)) as H. cbv zeta in H.
  pose proof (existsb_false_forallb _ _ (setup_never_draws w boot)) as Hs.
  unfold calls in *.
  destruct (aborted (outcome (setup w boot))).
  - destruct H as (-> & _). exact Hs.
  - destruct H as (-> & _). rewrite map_app, existsb_app, Hs.
    rewrite render_loop_S.
    destruct (mbind_run (frame None) (render_loop fuel) w
                (final (outcome (setup w boot)))) as [-> _].
    now rewrite map_app, existsb_app, frame_calls_map.
Qed.

(** ** Aborting and going on *)

Lemma abort_has_asserted_cause_witness :
  aborted (outcome (run world_without_egl 5%nat)) = true
  /\ exists pre e,
       events (run world_without_egl 5%nat) = pre ++ [e]
       /\ asserted_failure e = true.
Proof.
  split; [vm_compute; reflexivity|].
  apply (abort_has_asserted_cause world_without_egl 5%nat).
  vm_compute. reflexivity.
Defined.

Lemma render_loop_keeps_going_witness :
  aborted (outcome (run happy_world 3%nat)) = false
  /\ exists m, outcome (run happy_world 3%nat) = Done None m
               /\ List.length (filter is_swap (calls (run happy_world 3%nat)))
                  = 3%nat.
Proof.
  split; [vm_compute; reflexivity|].
  apply (render_loop_keeps_going happy_world 3%nat).
  vm_compute. reflexivity.
Defined.

(** ** Binary64 arithmetic on integers below 2^53 is exact

    The primitive operations are related to [SpecFloat] by the
    Standard Library's [FloatAxioms]; what follows is proved about the
    rounding functions of [SpecFloat]. *)

Lemma digits2_pos_log2 (p : positive) :
  Zpos (digits2_pos p) = Z.log2 (Zpos p) + 1.
Proof.
  assert (H : forall q, digits2_pos q = Pos.size q).
  { induction q; cbn; congruence. }
  rewrite H. destruct p; cbn [Z.log2 Pos.size]; rewrite ?Pos2Z.inj_succ; lia.
Qed.

Lemma digits_pos (n : positive) : 1 <= digits n.
Proof. unfold digits. pose proof (Z.log2_nonneg (Zpos n)). lia. Qed.

Lemma digits_le_53 (n : positive) : Zpos n < 2 ^ 53 -> digits n <= 53.
Proof.
  intros H. unfold digits.
  assert (Z.log2 (Zpos n) < 53) by (apply Z.log2_lt_pow2; lia). lia.
Qed.

Lemma digits_shift (M n : positive) (k : Z) :
  0 <= k -> Zpos M = Zpos n * 2 ^ k -> digits M = digits n + k.
Proof.
  intros Hk E. unfold digits. rewrite E, Z.log2_mul_pow2 by lia. lia.
Qed.

Lemma shr_1_even (y : positive) :
  shr_1 (Build_shr_record (Zpos y~0) false false)
  = Build_shr_record (Zpos y) false false.
Proof. reflexivity. Qed.

Lemma pow2_xO (t : positive) : 2 ^ Zpos t~0 = 2 ^ Zpos t * 2 ^ Zpos t.
Proof.
  replace (Zpos t~0) with (Zpos t + Zpos t) by lia.
  apply Z.pow_add_r; lia.
Qed.

Lemma pow2_xI (t : positive) : 2 ^ Zpos t~1 = 2 * (2 ^ Zpos t * 2 ^ Zpos t).
Proof.
  replace (Zpos t~1) with (1 + (Zpos t + Zpos t)) by lia.
  rewrite Z.pow_add_r, Z.pow_add_r by lia. reflexivity.
Qed.

Lemma shr_exact (t : positive) :
  forall (m M : positive),
    Zpos M = Zpos m * 2 ^ Zpos t ->
    iter_pos shr_1 t (Build_shr_record (Zpos M) false false)
    = Build_shr_record (Zpos m) false false.
Proof.
  induction t as [t IH|t IH|]; intros m M E; cbn [iter_pos].
  - rewrite pow2_xI in E.
    assert (Hp : 0 < 2 ^ Zpos t) by (apply Z.pow_pos_nonneg; lia).
    destruct M as [M|M|]; try nia.
    rewrite shr_1_even.
    assert (Hm : Zpos M = Zpos m * 2 ^ Zpos t * 2 ^ Zpos t) by nia.
    remember (Z.to_pos (Zpos m * 2 ^ Zpos t)) as m1.
    assert (Hm1 : Zpos m1 = Zpos m * 2 ^ Zpos t).
    { subst m1. rewrite Z2Pos.id; [reflexivity|]. apply Z.mul_pos_pos; lia. }
    rewrite (IH m1 M) by (rewrite Hm1; exact Hm).
    apply IH. exact Hm1.
  - rewrite pow2_xO in E.
    assert (Hp : 0 < 2 ^ Zpos t) by (apply Z.pow_pos_nonneg; lia).
    assert (Hm : Zpos M = Zpos m * 2 ^ Zpos t * 2 ^ Zpos t) by nia.
    remember (Z.to_pos (Zpos m * 2 ^ Zpos t)) as m1.
    assert (Hm1 : Zpos m1 = Zpos m * 2 ^ Zpos t).
    { subst m1. rewrite Z2Pos.id; [reflexivity|]. apply Z.mul_pos_pos; lia. }
    rewrite (IH m1 M) by (rewrite Hm1; exact Hm).
    apply IH. exact Hm1.
  - change (2 ^ 1) with 2 in E.
    destruct M as [M|M|]; try lia.
    rewrite shr_1_even. f_equal. lia.
Qed.

Lemma iter_xO (m d : positive) :
  Zpos (Pos.iter xO m d) = Zpos m * 2 ^ Zpos d.
Proof.
  revert m. induction d using Pos.peano_ind; intros m.
  - cbn [Pos.iter]. change (2 ^ 1) with 2. lia.
  - rewrite Pos.iter_succ, Pos2Z.inj_xO, IHd, Pos2Z.inj_succ, Z.pow_succ_r by lia.
    ring.
Qed.

Lemma fexp_digits (d : Z) : 1 <= d -> fexp prec emax d = d - 53.
Proof. intros H. unfold fexp, SpecFloat.emin, prec, emax. lia. Qed.

Lemma canon_mantissa (n : positive) :
  Zpos n < 2 ^ 53 ->
  Zpos (Z.to_pos (Zpos n * 2 ^ (53 - digits n)))
  = Zpos n * 2 ^ (53 - digits n).
Proof.
  intros H. pose proof (digits_le_53 n H).
  rewrite Z2Pos.id; [reflexivity|].
  apply Z.mul_pos_pos; [lia|]. apply Z.pow_pos_nonneg; lia.
Qed.

(** Rounding a mantissa that holds an integer below 2^53 scaled by a
    power of two is exact. *)
Lemma round_aux_exact (s : bool) (M n : positive) (k : Z) :
  0 <= k -> Zpos M = Zpos n * 2 ^ k -> Zpos n < 2 ^ 53 ->
  53 <= digits n + k ->
  binary_round_aux prec emax s (Zpos M) (- k) loc_Exact = canon s n.
Proof.
  intros Hk E Hn Hd.
  pose proof (digits_pos n) as D1. pose proof (digits_le_53 n Hn) as D2.
  pose proof (canon_mantissa n Hn) as Hc.
  unfold canon.
  set (c := Z.to_pos (Zpos n * 2 ^ (53 - digits n))) in *.
  assert (Dc : digits c = 53).
  { rewrite (digits_shift c n (53 - digits n)); [lia|lia|exact Hc]. }
  unfold binary_round_aux, shr_fexp.
  cbn [Zdigits2 shr_record_of_loc].
  rewrite digits2_pos_log2. fold (digits M).
  rewrite (digits_shift M n k Hk E).
  replace (digits n + k + - k) with (digits n) by lia.
  rewrite fexp_digits by lia.
  assert (S1 : shr (Build_shr_record (Zpos M) false false) (- k)
                   (digits n - 53 - - k)
               = (Build_shr_record (Zpos c) false false, digits n - 53)).
  { unfold shr. destruct (digits n - 53 - - k) as [|t|t] eqn:T; try lia.
    - f_equal; [|lia]. f_equal. rewrite Hc, E. f_equal. f_equal. lia.
    - f_equal; [|lia]. apply shr_exact. rewrite Hc, E.
      rewrite <- Z.mul_assoc, <- Z.pow_add_r by lia. f_equal. f_equal. lia. }
  rewrite S1. cbn [shr_m loc_of_shr_record round_nearest_even Zdigits2
                   shr_record_of_loc].
  rewrite digits2_pos_log2. fold (digits c). rewrite Dc.
  replace (53 + (digits n - 53)) with (digits n) by lia.
  rewrite fexp_digits by lia.
  replace (digits n - 53 - (digits n - 53)) with 0 by lia.
  cbn [shr shr_m].
  replace (digits n - 53 <=? emax - prec) with true
    by (symmetry; apply Z.leb_le; unfold emax, prec; lia).
  reflexivity.
Qed.

Lemma round_exact (s : bool) (M n : positive) (k : Z) :
  0 <= k -> Zpos M = Zpos n * 2 ^ k -> Zpos n < 2 ^ 53 ->
  binary_round prec emax s M (- k) = canon s n.
Proof.
  intros Hk E Hn.
  pose proof (digits_pos n) as D1. pose proof (digits_le_53 n Hn) as D2.
  unfold binary_round. rewrite digits2_pos_log2. fold (digits M).
  rewrite (digits_shift M n k Hk E).
  replace (digits n + k + - k) with (digits n) by lia.
  rewrite fexp_digits by lia.
  unfold shl_align.
  destruct (digits n - 53 - - k) as [|t|t] eqn:T.
  - apply round_aux_exact; trivial. lia.
  - apply round_aux_exact; trivial. lia.
  - replace (digits n - 53) with (- (53 - digits n)) by lia.
    apply round_aux_exact; try lia.
    rewrite iter_xO, E, <- Z.mul_assoc, <- Z.pow_add_r by lia.
    f_equal. f_equal. lia.
Qed.

Lemma normalize_exact (z : Z) (k : Z) :
  0 <= k -> Z.abs z < 2 ^ 53 ->
  binary_normalize prec emax (z * 2 ^ k) (- k) false = SFZ z.
Proof.
  intros Hk Hz. assert (Hp : 0 < 2 ^ k) by (apply Z.pow_pos_nonneg; lia).
  destruct z as [|n|n]; cbn [SFZ].
  - reflexivity.
  - destruct (Zpos n * 2 ^ k) as [|M|M] eqn:E; try nia.
    cbn [binary_normalize]. apply round_exact; try lia.
  - destruct (Zneg n * 2 ^ k) as [|M|M] eqn:E; try nia.
    cbn [binary_normalize]. apply round_exact; try lia.
Qed.

Lemma SFZ_opp (z : Z) : SFopp (SFZ z) = SFZ (- z) \/ z = 0.
Proof. destruct z; [right|left|left]; reflexivity. Qed.

Lemma double_of_long_exact (z : Z) :
  Z.abs z < 2 ^ 53 -> Prim2SF (double_of_long z) = SFZ z.
Proof.
  intros Hz. unfold double_of_long.
  assert (P : forall n, 0 <= n < 2 ^ 53 ->
                        Prim2SF (of_uint63 (of_Z n)) = SFZ n).
  { intros n Hn. rewrite FloatAxioms.of_uint63_spec, Uint63.of_Z_spec.
    rewrite Z.mod_small by (change wB with (2 ^ 63); lia).
    replace n with (n * 2 ^ 0) at 1 by (change (2 ^ 0) with 1; lia).
    apply (normalize_exact n 0); lia. }
  destruct (z <? 0) eqn:S.
  - apply Z.ltb_lt in S. rewrite FloatAxioms.opp_spec, P by lia.
    destruct z; try lia. reflexivity.
  - apply Z.ltb_ge in S. apply P. lia.
Qed.

(** The sign, mantissa and exponent of a nonzero integer below 2^53. *)
Lemma SFZ_finite (a : Z) :
  a <> 0 -> Z.abs a < 2 ^ 53 ->
  exists s m e,
    SFZ a = S754_finite s m e
    /\ e <= 0 /\ - 53 < e
    /\ Zpos m = Z.abs a * 2 ^ (- e)
    /\ cond_Zopp s (Zpos m) = a * 2 ^ (- e)
    /\ e = Z.log2 (Z.abs a) - 52
    /\ s = (a <? 0).
Proof.
  intros Ha Hb. destruct a as [|n|n]; [contradiction| |].
  - exists false, (Z.to_pos (Zpos n * 2 ^ (53 - digits n))), (digits n - 53).
    pose proof (digits_pos n). pose proof (digits_le_53 n Hb).
    rewrite canon_mantissa by exact Hb.
    replace (- (digits n - 53)) with (53 - digits n) by lia.
    cbn [SFZ cond_Zopp Z.abs]. unfold canon, digits in *.
    repeat split; try lia.
  - exists true, (Z.to_pos (Zpos n * 2 ^ (53 - digits n))), (digits n - 53).
    pose proof (digits_pos n). pose proof (digits_le_53 n Hb).
    rewrite canon_mantissa by exact Hb.
    replace (- (digits n - 53)) with (53 - digits n) by lia.
    cbn [SFZ cond_Zopp Z.abs]. unfold canon, digits in *.
    repeat split; try lia.
Qed.

Lemma SFmul_exact (a b : Z) :
  0 < b -> Z.abs (a * b) < 2 ^ 53 ->
  SF64mul (SFZ a) (SFZ b) = SFZ (a * b).
Proof.
  intros Hb Hab.
  destruct (Z.eq_dec a 0) as [->|Ha].
  - destruct b; try lia. reflexivity.
  - assert (Ba : Z.abs a < 2 ^ 53) by nia.
    assert (Bb : Z.abs b < 2 ^ 53) by nia.
    destruct (SFZ_finite a Ha Ba) as (sa & ma & ea & -> & A1 & A2 & A3 & _ & A5 & A6).
    destruct (SFZ_finite b ltac:(lia) Bb)
      as (sb & mb & eb & -> & B1 & B2 & B3 & _ & B5 & B6).
    assert (sb = false) as -> by (rewrite B6; apply Z.ltb_ge; lia).
    unfold SF64mul, SFmul. rewrite xorb_false_r.
    assert (Hn : 0 < Z.abs a * b) by nia.
    remember (Z.to_pos (Z.abs a * b)) as n.
    assert (En : Zpos n = Z.abs a * b) by (subst n; rewrite Z2Pos.id; lia).
    replace (ea + eb) with (- (- ea - eb)) by lia.
    rewrite (round_aux_exact sa (ma * mb) n (- ea - eb)).
    + destruct a as [|p|p]; try lia.
      * replace (Zpos p * b) with (Zpos n) by (rewrite En; reflexivity).
        rewrite A6. reflexivity.
      * replace (Zneg p * b) with (Zneg n).
        -- rewrite A6. reflexivity.
        -- cbn [Z.abs] in En. lia.
    + lia.
    + rewrite Pos2Z.inj_mul, A3, B3, En.
      replace (Z.abs b) with b by lia.
      replace (- ea - eb) with (- ea + - eb) by lia.
      rewrite Z.pow_add_r by lia. ring.
    + rewrite En. rewrite Z.abs_mul in Hab. replace (Z.abs b) with b in Hab by lia.
      exact Hab.
    + unfold digits. rewrite En.
      pose proof (Z.log2_mul_below (Z.abs a) b ltac:(lia) ltac:(lia)).
      replace (Z.abs b) with b in B5 by lia. lia.
Qed.

Lemma shl_align_value (m : positive) (e ez : Z) :
  ez <= e -> Zpos (fst (shl_align m e ez)) = Zpos m * 2 ^ (e - ez).
Proof.
  intros H. unfold shl_align.
  destruct (ez - e) as [|d|d] eqn:D; try lia; cbn [fst].
  - replace (e - ez) with 0 by lia. change (2 ^ 0) with 1. lia.
  - rewrite iter_xO. f_equal. f_equal. lia.
Qed.

Lemma aligned_value (a : Z) (s : bool) (m : positive) (e ez : Z) :
  ez <= e -> e <= 0 ->
  cond_Zopp s (Zpos m) = a * 2 ^ (- e) ->
  cond_Zopp s (Zpos (fst (shl_align m e ez))) = a * 2 ^ (- ez).
Proof.
  intros H1 H2 Hm. rewrite shl_align_value by exact H1.
  replace (- ez) with (- e + (e - ez)) by lia.
  rewrite Z.pow_add_r by lia. rewrite Z.mul_assoc, <- Hm.
  destruct s; cbn [cond_Zopp]; lia.
Qed.

Lemma SFadd_exact (a b : Z) :
  Z.abs a < 2 ^ 53 -> Z.abs b < 2 ^ 53 -> Z.abs (a + b) < 2 ^ 53 ->
  SF64add (SFZ a) (SFZ b) = SFZ (a + b).
Proof.
  intros Ba Bb Bab.
  destruct (Z.eq_dec a 0) as [->|Ha].
  - destruct b; reflexivity.
  - destruct (Z.eq_dec b 0) as [->|Hb].
    + rewrite Z.add_0_r. destruct a; try contradiction; reflexivity.
    + destruct (SFZ_finite a Ha Ba) as (sa & ma & ea & -> & A1 & _ & _ & A4 & _).
      destruct (SFZ_finite b Hb Bb) as (sb & mb & eb & -> & B1 & _ & _ & B4 & _).
      unfold SF64add, SFadd. cbv zeta.
      rewrite (aligned_value a sa ma ea (Z.min ea eb)) by (trivial; lia).
      rewrite (aligned_value b sb mb eb (Z.min ea eb)) by (trivial; lia).
      rewrite <- Z.mul_add_distr_r.
      replace (Z.min ea eb) with (- - Z.min ea eb) at 2 by lia.
      apply normalize_exact; lia.
Qed.

Lemma SFsub_exact (a b : Z) :
  Z.abs a < 2 ^ 53 -> Z.abs b < 2 ^ 53 -> Z.abs (a - b) < 2 ^ 53 ->
  SF64sub (SFZ a) (SFZ b) = SFZ (a - b).
Proof.
  intros Ba Bb Bab.
  destruct (Z.eq_dec b 0) as [->|Hb].
  - rewrite Z.sub_0_r. destruct a; reflexivity.
  - destruct (Z.eq_dec a 0) as [->|Ha].
    + destruct b; try contradiction; reflexivity.
    + destruct (SFZ_finite a Ha Ba) as (sa & ma & ea & -> & A1 & _ & _ & A4 & _).
      destruct (SFZ_finite b Hb Bb) as (sb & mb & eb & -> & B1 & _ & _ & B4 & _).
      unfold SF64sub, SFsub. cbv zeta.
      rewrite (aligned_value a sa ma ea (Z.min ea eb)) by (trivial; lia).
      rewrite (aligned_value b sb mb eb (Z.min ea eb)) by (trivial; lia).
      rewrite <- Z.mul_sub_distr_r.
      replace (Z.min ea eb) with (- - Z.min ea eb) at 2 by lia.
      apply normalize_exact; lia.
Qed.

(** Truncation of an integer-valued float gives the integer back. *)
Lemma trunc_double_exact (f : float) (z : Z) :
  Prim2SF f = SFZ z -> Z.abs z < 2 ^ 53 -> trunc_double f = Some z.
Proof.
  intros E Hz. unfold trunc_double. rewrite E.
  destruct (Z.eq_dec z 0) as [->|Hn]; [reflexivity|].
  destruct (SFZ_finite z Hn Hz) as (s & m & e & -> & E1 & _ & E3 & E4 & _).
  f_equal.
  assert (V : match e with
              | 0 => Zpos m
              | Zpos p => Zpos m * 2 ^ Zpos p
              | Zneg p => Zpos m / 2 ^ Zpos p
              end * 2 ^ (- e) = Zpos m).
  { destruct e as [|p|p]; [apply Z.mul_1_r|lia|].
    change (- Zneg p) with (Zpos p). rewrite E3.
    change (- Zneg p) with (Zpos p).
    rewrite Z.div_mul; [reflexivity|]. apply Z.pow_nonzero; lia. }
  assert (Hp : 0 < 2 ^ (- e)) by (apply Z.pow_pos_nonneg; lia).
  revert V.
  generalize (match e with
              | 0 => Zpos m
              | Zpos p => Zpos m * 2 ^ Zpos p
              | Zneg p => Zpos m / 2 ^ Zpos p
              end).
  intros a V. generalize dependent (2 ^ (- e)). intros P E3 E4 V Hp.
  destruct s; cbn [cond_Zopp] in E4.
  - apply (Z.mul_reg_r _ _ P); lia.
  - apply (Z.mul_reg_r _ _ P); lia.
Qed.

(** ** The elapsed times a run prints *)

Lemma time_stamps_app (es es' : list event) :
  time_stamps (es ++ es') = time_stamps es ++ time_stamps es'.
Proof.
  induction es as [|[c r] es IH]; [reflexivity|].
  destruct c; cbn; rewrite IH; reflexivity.
Qed.

Lemma printed_deltas_app (es es' : list event) :
  printed_deltas (es ++ es') = printed_deltas es ++ printed_deltas es'.
Proof.
  induction es as [|[c r] es IH]; [reflexivity|].
  destruct c; cbn [printed_deltas app]; try (rewrite IH; reflexivity).
  destruct args as [|[d|t] [|a args]]; try (rewrite IH; reflexivity).
  destruct (String.eqb format delta_format); rewrite IH; reflexivity.
Qed.

Lemma frame_time_stamps (w : World) (tv : option timeval) (m : machine) :
  time_stamps (events (frame tv w m)) = [frame_tv w m]
  /\ printed_deltas (events (frame tv w m)) = [frame_delta w tv m].
Proof. rewrite frame_events. split; reflexivity. Qed.

Lemma render_loop_deltas (w : World) (fuel : nat) :
  forall tv m,
    printed_deltas (events (render_loop fuel tv w m))
    = deltas (read_local w tv)
             (time_stamps (events (render_loop fuel tv w m))).
Proof.
  induction fuel as [|fuel IH]; intros tv m; [reflexivity|].
  rewrite render_loop_S.
  destruct (mbind_run (frame tv) (render_loop fuel) w m) as [-> _].
  rewrite printed_deltas_app, time_stamps_app.
  destruct (frame_time_stamps w tv m) as [-> ->].
  rewrite frame_outcome. cbn [app deltas]. unfold frame_delta. f_equal.
  destruct (u32 _ =? 0); [|reflexivity].
  apply (IH (Some (frame_tv w m))).
Qed.

Lemma setup_reads_no_clock (w : World) (m : machine) :
  time_stamps (events (setup w m)) = []
  /\ printed_deltas (events (setup w m)) = [].
Proof.
  walk_setup w m
    (fun (es : list event) (_ : result unit) =>
       time_stamps es = [] /\ printed_deltas es = []).
  all: split; reflexivity.
Qed.

(** The printed values follow the time stamps: each one is line 313
    evaluated on the stamp of its frame and the stamp of the frame
    before, the first on the garbage in the slot of [tv_last]. *)
Lemma printed_deltas_chain (w : World) (fuel : nat) :
  printed_deltas (events (run w fuel))
  = deltas (stack_garbage w) (time_stamps (events (run w fuel))).
Proof.
  pose proof (run_cases w fuel) as H. cbv zeta in H.
  destruct (setup_reads_no_clock w boot) as [Ht Hd].
  destruct (aborted (outcome (setup w boot))).
  - destruct H as (-> & _). now rewrite Ht, Hd.
  - destruct H as (-> & _).
    rewrite printed_deltas_app, time_stamps_app, Ht, Hd.
    apply (render_loop_deltas w fuel None).
Qed.

Lemma slong_range (z : Z) : - 2 ^ 31 <= slong z < 2 ^ 31.
Proof.
  unfold slong, swrap, LONG_BITS.
  pose proof (Z.mod_pos_bound (z + 2 ^ (32 - 1)) (2 ^ 32) ltac:(lia)).
  change (2 ^ (32 - 1)) with (2 ^ 31) in *. lia.
Qed.

Lemma slong_small (z : Z) : - 2 ^ 31 <= z < 2 ^ 31 -> slong z = z.
Proof.
  intros H. unfold slong, swrap, LONG_BITS.
  change (2 ^ (32 - 1)) with (2 ^ 31).
  rewrite Z.mod_small; lia.
Qed.

Lemma long_of_double_exact (f : float) (z : Z) :
  Prim2SF f = SFZ z -> Z.abs z < 2 ^ 53 -> long_of_double f = saturate z.
Proof.
  intros E Hz. unfold long_of_double.
  rewrite (trunc_double_exact f z E Hz). rewrite E.
  destruct z; reflexivity.
Qed.

(** Line 313, evaluated in binary64 as the program does, is the
    integer expression [micros_between]: no operation rounds. *)
Lemma elapsed_micros_exact (t last : timeval) :
  in_long (tv_usec t) -> in_long (tv_usec last) ->
  elapsed_micros t last = micros_between t last.
Proof.
  unfold in_long, LONG_MIN, LONG_MAX, LONG_BITS.
  change (2 ^ (32 - 1)) with (2 ^ 31). intros Ht Hl.
  unfold elapsed_micros, micros_between, elapsed_double.
  pose proof (slong_range (tv_sec t - tv_sec last)) as Hd.
  set (d := slong (tv_sec t - tv_sec last)) in *.
  assert (P31 : 2 ^ 31 = 2147483648) by reflexivity.
  assert (P53 : 2 ^ 53 = 9007199254740992) by reflexivity.
  assert (M : 1000000%float = double_of_long 1000000) by reflexivity.
  apply long_of_double_exact; [|lia].
  rewrite FloatAxioms.sub_spec, FloatAxioms.add_spec, FloatAxioms.mul_spec.
  rewrite M, !double_of_long_exact by lia.
  rewrite SFmul_exact by lia.
  rewrite SFadd_exact by lia.
  apply SFsub_exact; lia.
Qed.

Lemma micros_between_in_range (t last : timeval) :
  in_long (tv_sec t - tv_sec last) ->
  micros_between t last = saturate (true_elapsed t last)
  /\ (in_long (true_elapsed t last) ->
      micros_between t last = true_elapsed t last).
Proof.
  unfold in_long, LONG_MIN, LONG_MAX, LONG_BITS.
  change (2 ^ (32 - 1)) with (2 ^ 31). intros H.
  unfold micros_between, true_elapsed.
  rewrite slong_small by lia. split; [reflexivity|].
  unfold saturate, LONG_MIN, LONG_MAX, LONG_BITS.
  change (2 ^ (32 - 1)) with (2 ^ 31). lia.
Qed.

Lemma time_stamps_in_long (es : list event) :
  Forall (fun t => in_long (tv_usec t)) (time_stamps es).
Proof.
  induction es as [|[c r] es IH]; [constructor|].
  destruct c; cbn [time_stamps]; try exact IH.
  constructor; [|exact IH]. cbn [tv_usec].
  pose proof (slong_range (out2 r)).
  unfold in_long, LONG_MIN, LONG_MAX, LONG_BITS.
  change (2 ^ (32 - 1)) with (2 ^ 31). lia.
Qed.

Lemma deltas_exact (ts : list timeval) :
  forall last,
    in_long (tv_usec last) ->
    Forall (fun t => in_long (tv_usec t)) ts ->
    deltas last ts = elapsed_chain last ts.
Proof.
  induction ts as [|t ts IH]; intros last Hl Hts; [reflexivity|].
  inversion Hts as [|? ? Ht Hts']; subst.
  cbn [deltas elapsed_chain].
  now rewrite elapsed_micros_exact, IH.
Qed.

(** X10: the values a run prints as elapsed microseconds are, in
    order, one per time stamp read: the time from the stamp of the
    frame before (for the first frame, from the garbage in the slot of
    [tv_last]) to the stamp of this frame, as the integer
    [(sec - sec') * 1000000 + usec - usec'] with the seconds subtracted
    in [long] and the result saturated to [long].  So whenever the
    difference of the seconds fits a [long], the printed value is the
    elapsed time brought to the nearest [long], and it is the elapsed
    time itself whenever that fits. *)
Theorem printed_values_are_frame_times (w : World) (fuel : nat) :
  in_long (tv_usec (stack_garbage w)) ->
  printed_deltas (events (run w fuel))
  = elapsed_chain (stack_garbage w) (time_stamps (events (run w fuel)))
  /\ (forall t last,
        in_long (tv_sec t - tv_sec last) ->
        micros_between t last = saturate (true_elapsed t last)
        /\ (in_long (true_elapsed t last) ->
            micros_between t last = true_elapsed t last)).
Proof.
  intros Hg. split; [|exact micros_between_in_range].
  rewrite printed_deltas_chain.
  apply deltas_exact; [exact Hg|apply time_stamps_in_long].
Qed.

Lemma printed_values_are_frame_times_witness :
  in_long (tv_usec (stack_garbage happy_world))
  /\ printed_deltas (events (run happy_world 3%nat))
     = [46000000; 9000000; 9000000].
Proof.
  split; [unfold in_long; vm_compute; split; discriminate|].
  destruct (printed_values_are_frame_times happy_world 3%nat) as [-> _].
  - unfold in_long. vm_compute. split; discriminate.
  - vm_compute. reflexivity.
Defined.

(** Beyond the range of [long] the printed value is the bound, not
    the elapsed time: 3000 seconds are printed as 2147483647. *)
Example long_frame_saturates :
  micros_between {| tv_sec := 3000; tv_usec := 0 |}
                 {| tv_sec := 0; tv_usec := 0 |} = 2147483647
  /\ true_elapsed {| tv_sec := 3000; tv_usec := 0 |}
                  {| tv_sec := 0; tv_usec := 0 |} = 3000000000.
Proof. vm_compute. split; reflexivity. Qed.

(** ** The logs, were the flag set *)

Lemma u32_s32_u32 (z : Z) : u32 (s32 (u32 z)) = u32 z.
Proof.
  unfold u32, s32.
  pose proof (Z.mod_pos_bound z (2 ^ 32) ltac:(lia)) as B.
  destruct (Z_lt_ge_dec (z mod 2 ^ 32) (2 ^ 31)) as [L|G].
  - rewrite (Z.mod_small (z mod 2 ^ 32 + 2 ^ 31)) by lia.
    replace (z mod 2 ^ 32 + 2 ^ 31 - 2 ^ 31) with (z mod 2 ^ 32) by lia.
    apply Z.mod_mod. lia.
  - replace (z mod 2 ^ 32 + 2 ^ 31)
      with (z mod 2 ^ 32 - 2 ^ 31 + 1 * 2 ^ 32) by lia.
    rewrite Z.mod_add by lia.
    rewrite (Z.mod_small (z mod 2 ^ 32 - 2 ^ 31)) by lia.
    replace (z mod 2 ^ 32 - 2 ^ 31 - 2 ^ 31)
      with (z mod 2 ^ 32 + (-1) * 2 ^ 32) by lia.
    rewrite Z.mod_add by lia. apply Z.mod_mod. lia.
Qed.

(** X11: [showlog] asks for the log of the very shader it was given,
    also when the handle does not fit the [GLint] parameter, with a
    buffer of 1024 bytes; it prints the handle as a signed number
    together with the text the library wrote; it cannot abort and
    leaves the state record alone.  [showprogramlog] does the same for
    a program. *)
Theorem showlog_prints_what_it_fetched (w : World) (m : machine) (h : Z) :
  let r := oracle w (clock m) (glGetShaderInfoLog (u32 h) 1024) in
  let r' := oracle w (clock m) (glGetProgramInfoLog (u32 h) 1024) in
  calls (showlog (s32 (u32 h)) w m)
  = [ glGetShaderInfoLog (u32 h) 1024;
      printf shader_log_format [PInt (s32 (u32 h)); PStr (out_text r)] ]
  /\ calls (showprogramlog (s32 (u32 h)) w m)
     = [ glGetProgramInfoLog (u32 h) 1024;
         printf program_log_format [PInt (s32 (u32 h)); PStr (out_text r')] ]
  /\ aborted (outcome (showlog (s32 (u32 h)) w m)) = false
  /\ aborted (outcome (showprogramlog (s32 (u32 h)) w m)) = false
  /\ gl (final (outcome (showlog (s32 (u32 h)) w m))) = gl m
  /\ gl (final (outcome (showprogramlog (s32 (u32 h)) w m))) = gl m.
Proof.
  cbv zeta. unfold calls, events, outcome.
  cbv beta iota zeta delta
    [showlog showprogramlog mbind do_call mret fst snd app map].
  rewrite !u32_s32_u32. repeat split.
Qed.

(** A handle above [INT_MAX] is printed as a negative number and its
    log is still the one that is fetched. *)
Example showlog_large_handle :
  calls (showlog (s32 4294967295) happy_world boot)
  = [ glGetShaderInfoLog 4294967295 1024;
      printf shader_log_format [PInt (-1); PStr EmptyString] ].
Proof. vm_compute. reflexivity. Qed.

Ltac walk_scene w m Q E :=
  apply (after_start init_scene w m Q);
  unfold init_scene, check, showlog, showprogramlog;
  repeat (first [rewrite E | walk_step]).

(** X12: with the flag set, a scene setup that completes fetches and
    prints three logs and no more: the log of the vertex shader after
    its compilation, that of the fragment shader after its
    compilation, and that of the program after the link, each printed
    with its handle and with the text the library wrote for it. *)
Theorem verbose_scene_prints_three_logs (w : World) (m : machine) :
  verbose (gl m) <> 0 ->
  aborted (outcome (init_scene w m)) = false ->
  let g := gl (final (outcome (init_scene w m))) in
  exists r1 a1 r2 a2 r3 a3,
    log_events (events (init_scene w m))
    = [ (glGetShaderInfoLog (vshader g) 1024, r1);
        (printf shader_log_format
                [PInt (s32 (vshader g)); PStr (out_text r1)], a1);
        (glGetShaderInfoLog (fshader g) 1024, r2);
        (printf shader_log_format
                [PInt (s32 (fshader g)); PStr (out_text r2)], a2);
        (glGetProgramInfoLog (program g) 1024, r3);
        (printf program_log_format
                [PInt (s32 (program g)); PStr (out_text r3)], a3) ].
Proof.
  intros Hv.
  assert (E : negb (verbose (gl m) =? 0) = true)
    by (apply negb_true_iff, Z.eqb_neq; exact Hv).
  walk_scene w m
    (fun (es : list event) (r : result unit) =>
       aborted r = false ->
       let g := gl (final r) in
       exists r1 a1 r2 a2 r3 a3,
         log_events es
         = [ (glGetShaderInfoLog (vshader g) 1024, r1);
             (printf shader_log_format
                     [PInt (s32 (vshader g)); PStr (out_text r1)], a1);
             (glGetShaderInfoLog (fshader g) 1024, r2);
             (printf shader_log_format
                     [PInt (s32 (fshader g)); PStr (out_text r2)], a2);
             (glGetProgramInfoLog (program g) 1024, r3);
             (printf program_log_format
                     [PInt (s32 (program g)); PStr (out_text r3)], a3) ])
    E.
  all: intros A; try discriminate A.
  cbn [final]; tidy. rewrite !u32_s32_u32.
  do 6 eexists. reflexivity.
Qed.

Lemma verbose_scene_prints_three_logs_witness :
  let m := {| gl := verbose_state; clock := 0 |} in
  verbose (gl m) <> 0
  /\ aborted (outcome (init_scene happy_world m)) = false
  /\ List.length (log_events (events (init_scene happy_world m))) = 6%nat.
Proof.
  cbv zeta. split; [discriminate|]. split; [vm_compute; reflexivity|].
  destruct (verbose_scene_prints_three_logs happy_world
              {| gl := verbose_state; clock := 0 |})
    as (r1 & a1 & r2 & a2 & r3 & a3 & ->);
    [discriminate|vm_compute; reflexivity|reflexivity].
Defined.

(** ** The buffer the data goes to *)

Lemma setup_binds_then_uploads (w : World) (m : machine) :
  filter is_bind_or_upload (calls (setup w m))
  = if aborted (outcome (setup w m)) then []
    else [ glBindBuffer GL_ARRAY_BUFFER
             (vbo_triangle (gl (final (outcome (setup w m)))));
           the_upload ].
Proof.
  unfold calls.
  walk_setup w m
    (fun (es : list event) (r : result unit) =>
       filter is_bind_or_upload (map fst es)
       = if aborted r then []
         else [ glBindBuffer GL_ARRAY_BUFFER (vbo_triangle (gl (final r)));
                the_upload ]).
  all: reflexivity.
Qed.

(** X13: the vertex data goes into the buffer that [glGenBuffers]
    named: the only buffer ever bound is that one, it is bound once,
    just before the one upload, and no frame binds or uploads
    anything; when the setup fails, nothing is bound at all. *)
Theorem upload_goes_to_generated_buffer (w : World) (fuel : nat) :
  let g := gl (final (outcome (run w fuel))) in
  filter is_bind_or_upload (calls (run w fuel))
  = (if aborted (outcome (setup w boot)) then []
     else [ glBindBuffer GL_ARRAY_BUFFER (vbo_triangle g); the_upload ])
  /\ vbo_triangle g
     = u32 (out1 (first_response is_gen_buffers (events (run w fuel)))).
Proof.
  destruct (run_tail w fuel) as (tail & E & Hp & Hg).
  cbv zeta. split.
  - unfold calls. rewrite E, map_app, filter_app.
    rewrite (filter_nil_forallb is_bind_or_upload (map fst tail)), app_nil_r.
    + rewrite Hg. apply setup_binds_then_uploads.
    + now apply Hp.
  - rewrite Hg, E, setup_state_of.
    rewrite first_response_app by now apply Hp. reflexivity.
Qed.

(** ** Which fields each stage writes *)

Lemma after_assert_tail (pre : list event) (w : World) (m : machine)
  (Q : list event -> result unit -> Prop) (line : nat) (b : bool) :
  (b = true -> Q pre (Done tt m)) ->
  (b = false -> Q pre (Abort line m)) ->
  after pre (assert line b) w m Q.
Proof.
  unfold after, events, outcome, assert.
  destruct b; intros H1 H2; cbn; rewrite app_nil_r; auto.
Qed.

Ltac walk_any :=
  first [ walk_step
        | apply after_assert_tail; intros ?H; tidy ].

(** X14: the two stages keep to their own fields, wherever they stop:
    [init_ogl] never changes the shader, program, attribute and buffer
    fields or the flag, and [init_scene] never changes the screen
    size, the display, the surface, the context or the flag. *)
Theorem stages_keep_to_their_fields (w : World) (m : machine) :
  (let g := gl (final (outcome (init_ogl w m))) in
   vshader g = vshader (gl m) /\ fshader g = fshader (gl m)
   /\ program g = program (gl m) /\ attr_vertex g = attr_vertex (gl m)
   /\ vbo_triangle g = vbo_triangle (gl m) /\ verbose g = verbose (gl m))
  /\ (let g := gl (final (outcome (init_scene w m))) in
      screen_width g = screen_width (gl m)
      /\ screen_height g = screen_height (gl m)
      /\ display g = display (gl m) /\ surface g = surface (gl m)
      /\ context g = context (gl m) /\ verbose g = verbose (gl m)).
Proof.
  split.
  - apply (after_start init_ogl w m
             (fun (_ : list event) (r : result unit) =>
                let g := gl (final r) in
                vshader g = vshader (gl m) /\ fshader g = fshader (gl m)
                /\ program g = program (gl m)
                /\ attr_vertex g = attr_vertex (gl m)
                /\ vbo_triangle g = vbo_triangle (gl m)
                /\ verbose g = verbose (gl m))).
    unfold init_ogl, check. repeat walk_any.
    all: cbn [final]; tidy; repeat split.
  - apply (after_start init_scene w m
             (fun (_ : list event) (r : result unit) =>
                let g := gl (final r) in
                screen_width g = screen_width (gl m)
                /\ screen_height g = screen_height (gl m)
                /\ display g = display (gl m) /\ surface g = surface (gl m)
                /\ context g = context (gl m) /\ verbose g = verbose (gl m))).
    unfold init_scene, check, showlog, showprogramlog. repeat walk_any.
    all: cbn [final]; tidy; repeat split.
Qed.
